(** * Authentication routes of the account service (fast_api_app/routes/auth.py)

    A shallow embedding of the five routes [signup], [login],
    [confirmed_email], [request_email] and [refresh_token], together with the
    collaborators they call (user repository, token codec, credential hasher,
    background notifier), and the properties of the token lifecycle and of the
    confirmation workflow stated over them.

    Python exceptions are results of the computation, the database session and
    the background-task queue are threaded as explicit state, and the clock
    reading and the hashing salt of a request are explicit inputs. *)

From stdpp Require Import gmap strings list fin_maps.

Local Open Scope string_scope.
Local Open Scope N_scope.

(** ** starlette.status *)

Module status.
Definition HTTP_400_BAD_REQUEST : N := 400.
Definition HTTP_401_UNAUTHORIZED : N := 401.
Definition HTTP_409_CONFLICT : N := 409.
End status.

(** ** Tokens and password hashes: the values the services exchange *)

(** The purpose tag signed into a token. *)
Inductive Kind := Access | Refresh | EmailConfirmation.

#[global] Instance Kind_eq_dec : EqDecision Kind.
Proof. solve_decision. Defined.

(** The signed payload of a token. *)
Record Claims := mkClaims {
  sub : string;   (* subject: the user's email *)
  scope : Kind;   (* kind discriminator *)
  iat : N;        (* issued-at *)
  exp : N         (* expiry *)
}.

#[global] Instance Claims_eq_dec : EqDecision Claims.
Proof. solve_decision. Defined.

(** A token string, read symbolically: either the encoding of a payload
    signed under some key, or any other string.  Two token strings are equal
    exactly when they are the same term, which is how the routes compare
    them ([user.refresh_token != token]). *)
Inductive Token :=
| JWT (key : string) (payload : Claims)
| Malformed (raw : string).

#[global] Instance Token_eq_dec : EqDecision Token.
Proof. solve_decision. Defined.

(** The output of the one-way transform applied to a salt and a plaintext. *)
Inductive Digest := KDF (salt : N) (plaintext : string).

#[global] Instance Digest_eq_dec : EqDecision Digest.
Proof. solve_decision. Defined.

(** A stored password hash: the salt is embedded next to the digest. *)
Record PasswordHash := mkPasswordHash {
  ph_salt : N;
  ph_digest : Digest
}.

#[global] Instance PasswordHash_eq_dec : EqDecision PasswordHash.
Proof. solve_decision. Defined.

(** ** Schemas (request and response bodies) *)

Module UserModel.
(** The signup body.  The password field holds the plaintext on arrival
    and the hash after [signup] has overwritten it, hence the parameter. *)
Record t (P : Type) := mk {
  username : string;
  email : string;
  password : P
}.
Arguments mk {P} _ _ _.
Arguments username {P} _.
Arguments email {P} _.
Arguments password {P} _.
End UserModel.

Module TokenModel.
Record t := mk {
  access_token : Token;
  refresh_token : Token;
  token_type : string
}.
End TokenModel.

(** ** Process configuration *)

Record Settings := mkSettings {
  secret_key : string;
  access_ttl : N;
  refresh_ttl : N;
  email_ttl : N
}.

(** ** The user table *)

(** A row of the user table without its key column. *)
Record Row := mkRow {
  row_username : string;
  row_password : PasswordHash;
  row_confirmed : bool;
  row_refresh_token : option Token
}.

Module User.
(** A user object as the repository hands it to the routes: the row found
    under [email], with the key column attached. *)
Record t := mk {
  email : string;
  username : string;
  password : PasswordHash;
  confirmed : bool;
  refresh_token : option Token
}.

Definition of_row (e : string) (r : Row) : t :=
  mk e (row_username r) (row_password r) (row_confirmed r)
     (row_refresh_token r).
End User.

(** ** Background work *)

(** A queued call [send_email(email, username, host)]. *)
Record Task := send_email {
  task_email : string;
  task_username : string;
  task_host : string
}.

(** A delivered confirmation mail. *)
Record Mail := mkMail {
  mail_to : string;
  mail_name : string;
  mail_host : string;
  mail_token : Token
}.

(** ** State and effects *)

Record World := mkWorld {
  users : gmap string Row;          (* the database, keyed by unique email *)
  background_tasks : list Task;     (* tasks queued by the running request *)
  outbox : list Mail                (* what the notifier has delivered *)
}.

Inductive Exception :=
| HTTPException (status_code : N) (detail : string)
| AttributeError (obj : string) (attr : string).

Inductive Result (A : Type) :=
| Return (a : A)
| Raise (e : Exception).
Arguments Return {A} _.
Arguments Raise {A} _.

(** A route body: it reads and writes the world and either returns or
    raises.  Writes made before a [raise] stay (the repository commits on
    every call). *)
Definition M (A : Type) : Type := World → Result A * World.

Definition ret {A} (a : A) : M A := λ w, (Return a, w).

Definition raise {A} (e : Exception) : M A := λ w, (Raise e, w).

Definition bind {A B} (m : M A) (k : A → M B) : M B :=
  λ w, match m w with
       | (Return a, w') => k a w'
       | (Raise e, w') => (Raise e, w')
       end.

Notation "'let!' x ':=' m 'in' k" := (bind m (λ x, k))
  (at level 10, x name, m at level 100, k at level 200).
Notation "m ';;' k" := (bind m (λ _, k))
  (at level 100, k at level 200, right associativity).

(** The response of a run and the world it leaves. *)
Definition response {A} (m : M A) (w : World) : Result A := fst (m w).
Definition after {A} (m : M A) (w : World) : World := snd (m w).

(** [BackgroundTasks.add_task] *)
Definition add_task (t : Task) : M unit :=
  λ w, (Return tt,
        mkWorld (users w) (background_tasks w ++ [t]) (outbox w)).

(** ** fast_api_app.repository.users *)

Module repository_users.

(** Modelled from the spec: the repository module is not part of the
    sources; [find_by_email(email) -> User | absent] looks the unique
    email up. *)
Definition get_user_by_email (email : string) : M (option User.t) :=
  λ w, (Return (User.of_row email <$> users w !! email), w).

(** Modelled from the spec: the repository module is not part of the
    sources; [create(new_user_data) -> User] stores a user that starts
    unconfirmed and without a refresh token, and returns it. *)
Definition create_user (body : UserModel.t PasswordHash) : M User.t :=
  λ w,
    let r := mkRow (UserModel.username body) (UserModel.password body)
                   false None in
    (Return (User.of_row (UserModel.email body) r),
     mkWorld (<[UserModel.email body := r]> (users w))
             (background_tasks w) (outbox w)).

(** Modelled from the spec: the repository module is not part of the
    sources; [set_refresh_token(user, token_or_null)] overwrites the
    single stored refresh token of that user. *)
Definition update_token (user : User.t) (token : option Token) : M unit :=
  λ w,
    (Return tt,
     mkWorld (alter (λ r, mkRow (row_username r) (row_password r)
                                (row_confirmed r) token)
                    (User.email user) (users w))
             (background_tasks w) (outbox w)).

(** Modelled from the spec: the repository module is not part of the
    sources; [mark_confirmed(email)] applies the confirmed=true
    transition. *)
Definition confirmed_email (email : string) : M unit :=
  λ w,
    (Return tt,
     mkWorld (alter (λ r, mkRow (row_username r) (row_password r)
                                true (row_refresh_token r))
                    email (users w))
             (background_tasks w) (outbox w)).

End repository_users.

(** ** fast_api_app.services.auth *)

Module auth_service.

Section WithSettings.

Variable cfg : Settings.

(** Modelled from the spec: the auth service is not part of the sources;
    [hash(plaintext) -> hash] is a one-way transform under a per-call salt
    that is embedded in the output. *)
Definition get_password_hash (salt : N) (plaintext : string) : PasswordHash :=
  mkPasswordHash salt (KDF salt plaintext).

(** Modelled from the spec: the auth service is not part of the sources;
    [verify(plaintext, hash) -> bool] is true iff the plaintext hashes to
    the stored value under the embedded salt; a mismatch is [false], never
    an error. *)
Definition verify_password (plaintext : string) (h : PasswordHash) : bool :=
  bool_decide (KDF (ph_salt h) plaintext = ph_digest h).

(** Modelled from the spec: the auth service is not part of the sources;
    [issue(kind, subject, ttl) -> token_string] builds the payload
    {subject, kind, issued-at, expires-at} and signs it with the
    process-wide secret key. *)
Definition issue (kind : Kind) (subject : string) (ttl : N) (now : N)
  : Token :=
  JWT (secret_key cfg) (mkClaims subject kind now (now + ttl)).

(** Modelled from the spec: the auth service is not part of the sources;
    [decode(token_string, expected_kind) -> subject] verifies the
    signature, checks the expiry (it fails once the ttl has elapsed) and
    checks the kind claim, with one unified failure. *)
Definition decode (token : Token) (expected : Kind) (now : N)
  : option string :=
  match token with
  | JWT key payload =>
      if bool_decide (key = secret_key cfg)
         && (now <? exp payload)
         && bool_decide (scope payload = expected)
      then Some (sub payload)
      else None
  | Malformed _ => None
  end.

(** Modelled from the spec: access tokens are issued with the access
    lifetime for the subject given as [data={"sub": ...}]. *)
Definition create_access_token (subject : string) (now : N) : Token :=
  issue Access subject (access_ttl cfg) now.

(** Modelled from the spec: refresh tokens are issued with the refresh
    lifetime. *)
Definition create_refresh_token (subject : string) (now : N) : Token :=
  issue Refresh subject (refresh_ttl cfg) now.

(** Modelled from the spec: confirmation tokens are issued with their own
    lifetime. *)
Definition create_email_token (subject : string) (now : N) : Token :=
  issue EmailConfirmation subject (email_ttl cfg) now.

(** Modelled from the spec: the auth service is not part of the sources;
    a presented refresh token is decoded as refresh kind and the operation
    fails as unauthorized if it is invalid or expired.  The spec fixes the
    condition only; the detail text is the spec's name for it. *)
Definition decode_refresh_token (token : Token) (now : N) : M string :=
  match decode token Refresh now with
  | Some email => ret email
  | None => raise (HTTPException status.HTTP_401_UNAUTHORIZED
                                 "Invalid token")
  end.

(** Modelled from the spec: the auth service is not part of the sources;
    a confirmation token is decoded as email-confirmation kind and the
    operation fails with the verification-error condition if it is invalid
    or expired. *)
Definition get_email_from_token (token : Token) (now : N) : M string :=
  match decode token EmailConfirmation now with
  | Some email => ret email
  | None => raise (HTTPException status.HTTP_400_BAD_REQUEST
                                 "Verification error")
  end.

End WithSettings.

End auth_service.

(** ** fast_api_app.routes.auth *)

Module auth.

Section Routes.

Variable cfg : Settings.

(** [user.confirmed] on the result of a lookup: reading an attribute of
    [None] raises. *)
Definition getattr_confirmed (user : option User.t) : M bool :=
  match user with
  | Some u => ret (User.confirmed u)
  | None => raise (AttributeError "NoneType" "confirmed")
  end.

(** [POST /auth/signup] *)
Definition signup (body : UserModel.t string) (salt : N)
    (base_url : string) : M (User.t * string) :=
  let! exist_user := repository_users.get_user_by_email
                       (UserModel.email body) in
  if bool_decide (is_Some exist_user) then
    raise (HTTPException status.HTTP_409_CONFLICT "Account already exists")
  else
    let body := UserModel.mk (UserModel.username body) (UserModel.email body)
                  (auth_service.get_password_hash salt
                     (UserModel.password body)) in
    let! new_user := repository_users.create_user body in
    add_task (send_email (User.email new_user) (User.username new_user)
                         base_url) ;;
    ret (new_user, "User successfully created").

(** [POST /auth/login]; the form's [username] field carries the email. *)
Definition login (username password : string) (now : N)
  : M TokenModel.t :=
  let! user := repository_users.get_user_by_email username in
  match user with
  | None =>
      raise (HTTPException status.HTTP_401_UNAUTHORIZED "Invalid email")
  | Some user =>
      if negb (User.confirmed user) then
        raise (HTTPException status.HTTP_401_UNAUTHORIZED
                             "Email not confirmed")
      else if negb (auth_service.verify_password password
                      (User.password user)) then
        raise (HTTPException status.HTTP_401_UNAUTHORIZED
                             "Invalid password")
      else
        let access_token :=
          auth_service.create_access_token cfg (User.email user) now in
        let refresh_token :=
          auth_service.create_refresh_token cfg (User.email user) now in
        repository_users.update_token user (Some refresh_token) ;;
        ret (TokenModel.mk access_token refresh_token "bearer")
  end.

(** [GET /auth/confirmed_email/{token}] *)
Definition confirmed_email (token : Token) (now : N) : M string :=
  let! email := auth_service.get_email_from_token cfg token now in
  let! user := repository_users.get_user_by_email email in
  match user with
  | None =>
      raise (HTTPException status.HTTP_400_BAD_REQUEST "Verification error")
  | Some user =>
      if User.confirmed user then
        ret "Your email is already confirmed"
      else
        repository_users.confirmed_email email ;;
        ret "Email confirmed"
  end.

(** [POST /auth/request_email] *)
Definition request_email (email : string) (base_url : string) : M string :=
  let! user := repository_users.get_user_by_email email in
  let! confirmed := getattr_confirmed user in
  if confirmed then
    ret "Your email is already confirmed"
  else
    match user with
    | Some u =>
        add_task (send_email (User.email u) (User.username u) base_url) ;;
        ret "Check your email for confirmation."
    | None =>
        ret "Check your email for confirmation."
    end.

(** [GET /auth/refresh_token] *)
Definition refresh_token (token : Token) (now : N) : M TokenModel.t :=
  let! email := auth_service.decode_refresh_token cfg token now in
  let! user := repository_users.get_user_by_email email in
  match user with
  | None =>
      (* [user.refresh_token] with [user] being [None] *)
      raise (AttributeError "NoneType" "refresh_token")
  | Some user =>
      if bool_decide (User.refresh_token user ≠ Some token) then
        repository_users.update_token user None ;;
        raise (HTTPException status.HTTP_401_UNAUTHORIZED
                             "Invalid refresh token")
      else
        let access_token :=
          auth_service.create_access_token cfg email now in
        let refresh_token :=
          auth_service.create_refresh_token cfg email now in
        repository_users.update_token user (Some refresh_token) ;;
        ret (TokenModel.mk access_token refresh_token "bearer")
  end.

End Routes.

End auth.

(** ** The request cycle *)

Section Server.

Variable cfg : Settings.

(** Modelled from the spec: the email service is not part of the sources;
    [send_confirmation(email, display_name, origin_url)] is best effort: it
    mails a freshly issued email-confirmation token embedding the email,
    and a failed delivery is swallowed.  [delivers] says which sends
    succeed. *)
Definition run_task (delivers : N → Task → bool) (now : N)
    (box : list Mail) (t : Task) : list Mail :=
  if delivers now t then
    box ++ [mkMail (task_email t) (task_username t) (task_host t)
                   (auth_service.create_email_token cfg (task_email t) now)]
  else box.

(** The queued tasks run once the route has produced its response. *)
Definition run_background_tasks (delivers : N → Task → bool) (now : N)
    (w : World) : World :=
  mkWorld (users w) []
          (foldl (run_task delivers now) (outbox w) (background_tasks w)).

Definition serve {A} (delivers : N → Task → bool) (now : N) (route : M A)
    (w : World) : Result A * World :=
  (response route w, run_background_tasks delivers now (after route w)).

(** The five surfaced operations. *)
Inductive Request :=
| Signup (body : UserModel.t string) (salt : N) (base_url : string)
| Login (username password : string)
| ConfirmedEmail (token : Token)
| RequestEmail (email base_url : string)
| RefreshToken (token : Token).

(** The world after serving one request at clock reading [now]. *)
Definition step (delivers : N → Task → bool) (w : World)
    (r : N * Request) : World :=
  let now := r.1 in
  match r.2 with
  | Signup body salt base_url =>
      (serve delivers now (auth.signup body salt base_url) w).2
  | Login username password =>
      (serve delivers now (auth.login cfg username password now) w).2
  | ConfirmedEmail token =>
      (serve delivers now (auth.confirmed_email cfg token now) w).2
  | RequestEmail email base_url =>
      (serve delivers now (auth.request_email email base_url) w).2
  | RefreshToken token =>
      (serve delivers now (auth.refresh_token cfg token now) w).2
  end.

(** The world after serving a sequence of requests. *)
Definition run (delivers : N → Task → bool) (trace : list (N * Request))
    (w : World) : World :=
  foldl (step delivers) w trace.

End Server.

(** The confirmed flag of an email, [false] when it is not registered. *)
Definition is_confirmed (w : World) (email : string) : bool :=
  from_option row_confirmed false (users w !! email).

(** The refresh token stored for an email. *)
Definition stored_refresh_token (w : World) (email : string)
  : option Token :=
  users w !! email ≫= row_refresh_token.

(** The clock reading signed into a token, if it is well formed. *)
Definition issued_at (token : Token) : option N :=
  match token with
  | JWT _ payload => Some (iat payload)
  | Malformed _ => None
  end.

(** ** A concrete deployment, for examples *)

Module Demo.

Definition cfg : Settings := mkSettings "secret" 900 604800 604800.

Definition alice : Row :=
  mkRow "alice" (auth_service.get_password_hash 7 "correct horse") true None.

Definition bob : Row :=
  mkRow "bob" (auth_service.get_password_hash 9 "hunter2") false None.

Definition world0 : World :=
  mkWorld (<["alice@example.com" := alice]>
             (<["bob@example.com" := bob]> ∅)) [] [].

Definition empty_world : World := mkWorld ∅ [] [].

(** The refresh token issued to alice at clock reading [t]. *)
Definition alice_token (t : N) : Token :=
  auth_service.create_refresh_token cfg "alice@example.com" t.

(** alice's row while [stored] is her stored refresh token. *)
Definition alice_holding (stored : option Token) : Row :=
  mkRow "alice" (auth_service.get_password_hash 7 "correct horse") true
        stored.

Definition world_holding (stored : option Token) : World :=
  mkWorld (<["alice@example.com" := alice_holding stored]>
             (<["bob@example.com" := bob]> ∅)) [] [].

(** The confirmation token mailed to bob at clock reading 2. *)
Definition bob_email_token : Token :=
  auth_service.create_email_token cfg "bob@example.com" 2.

Definition carol : UserModel.t string :=
  UserModel.mk "carol" "carol@example.com" "s3cret".

(** A notifier that delivers everything, and one that delivers nothing. *)
Definition reliable : N → Task → bool := λ _ _, true.
Definition broken : N → Task → bool := λ _ _, false.

End Demo.

(** ** Invariants of the user table *)

(** A row that holds a stored refresh token belongs to a confirmed user. *)
Definition token_holder_confirmed (r : Row) : bool :=
  match row_refresh_token r with
  | Some _ => row_confirmed r
  | None => true
  end.

(** Every row of the user table satisfies [token_holder_confirmed]. *)
Definition holders_confirmed (w : World) : Prop :=
  map_Forall (λ _ r, token_holder_confirmed r = true) (users w).

(** [token] is a refresh token issued by this deployment to [email]. *)
Definition issued_to (cfg : Settings) (email : string) (token : Token)
  : bool :=
  match issued_at token with
  | Some t =>
      bool_decide (token = auth_service.create_refresh_token cfg email t)
  | None => false
  end.

(** Every stored refresh token was issued to the user whose row holds it. *)
Definition stored_tokens_own (cfg : Settings) (w : World) : Prop :=
  map_Forall
    (λ email r,
       from_option (issued_to cfg email) true (row_refresh_token r) = true)
    (users w).

(** * Properties *)

(** ** Reading the routes step by step *)

Lemma bind_return {A B} (m : M A) (k : A → M B) w a w' :
  m w = (Return a, w') → bind m k w = k a w'.
Proof. intros E. unfold bind. by rewrite E. Qed.

Lemma bind_raise {A B} (m : M A) (k : A → M B) w e w' :
  m w = (Raise e, w') → bind m k w = (Raise e, w').
Proof. intros E. unfold bind. by rewrite E. Qed.

Lemma response_eq {A} (m : M A) w r w' : m w = (r, w') → response m w = r.
Proof. intros E. unfold response. by rewrite E. Qed.

Lemma after_eq {A} (m : M A) w r w' : m w = (r, w') → after m w = w'.
Proof. intros E. unfold after. by rewrite E. Qed.

Lemma get_user_by_email_found w email row :
  users w !! email = Some row →
  repository_users.get_user_by_email email w
  = (Return (Some (User.of_row email row)), w).
Proof. intros E. unfold repository_users.get_user_by_email. by rewrite E. Qed.

Lemma get_user_by_email_absent w email :
  users w !! email = None →
  repository_users.get_user_by_email email w = (Return None, w).
Proof. intros E. unfold repository_users.get_user_by_email. by rewrite E. Qed.

Lemma decode_refresh_token_valid cfg token now email w :
  auth_service.decode cfg token Refresh now = Some email →
  auth_service.decode_refresh_token cfg token now w = (Return email, w).
Proof. intros E. unfold auth_service.decode_refresh_token. by rewrite E. Qed.

Lemma decode_refresh_token_invalid cfg token now w :
  auth_service.decode cfg token Refresh now = None →
  auth_service.decode_refresh_token cfg token now w
  = (Raise (HTTPException 401 "Invalid token"), w).
Proof. intros E. unfold auth_service.decode_refresh_token. by rewrite E. Qed.

Lemma get_email_from_token_valid cfg token now email w :
  auth_service.decode cfg token EmailConfirmation now = Some email →
  auth_service.get_email_from_token cfg token now w = (Return email, w).
Proof. intros E. unfold auth_service.get_email_from_token. by rewrite E. Qed.

(** What [decode] accepts: a payload signed under the configured key, of the
    expected kind, not yet expired. *)
Lemma decode_Some cfg token kind now email :
  auth_service.decode cfg token kind now = Some email ↔
  ∃ payload, token = JWT (secret_key cfg) payload ∧ sub payload = email
             ∧ scope payload = kind ∧ now < exp payload.
Proof.
  unfold auth_service.decode. split.
  - destruct token as [key payload|raw]; [|done].
    destruct (bool_decide (key = secret_key cfg)) eqn:Hk; [|done].
    destruct (now <? exp payload) eqn:Ht; [|done].
    destruct (bool_decide (scope payload = kind)) eqn:Hs; [|done].
    simpl. intros [= <-].
    apply bool_decide_eq_true in Hk, Hs. apply N.ltb_lt in Ht.
    exists payload. by subst.
  - intros (payload & -> & <- & <- & Ht).
    apply N.ltb_lt in Ht. rewrite Ht.
    by rewrite !bool_decide_eq_true_2.
Qed.

(** The stored token and the flag after the two repository writes. *)
Lemma update_token_lookup user token w e :
  users (after (repository_users.update_token user token) w) !! e
  = if decide (User.email user = e)
    then (λ r, mkRow (row_username r) (row_password r) (row_confirmed r)
                     token) <$> users w !! e
    else users w !! e.
Proof.
  unfold after, repository_users.update_token. simpl.
  rewrite lookup_alter. by case_decide; subst.
Qed.

Lemma confirmed_email_lookup email w e :
  users (after (repository_users.confirmed_email email) w) !! e
  = if decide (email = e)
    then (λ r, mkRow (row_username r) (row_password r) true
                     (row_refresh_token r)) <$> users w !! e
    else users w !! e.
Proof.
  unfold after, repository_users.confirmed_email. simpl.
  rewrite lookup_alter. by case_decide; subst.
Qed.

(** ** Request confirmation *)

(** [request_email] reads [user.confirmed] before it tests [user]: for an
    email that is not registered the lookup is [None] and the read raises. *)
Lemma request_email_unregistered w email base_url :
  users w !! email = None →
  auth.request_email email base_url w
  = (Raise (AttributeError "NoneType" "confirmed"), w).
Proof.
  intros Habsent. unfold auth.request_email.
  rewrite (bind_return _ _ _ _ _ (get_user_by_email_absent _ _ Habsent)).
  reflexivity.
Qed.

(** C1 (fails on the code).  The claim asks that request-confirmation for an
    unregistered email return the generic "Check your email for
    confirmation." message.  On the empty user table the route instead
    raises the attribute error of [None.confirmed], and so does not return
    that message. *)
Theorem request_email_unknown_email_faults :
  auth.request_email "ghost@example.com" "http://testserver/"
    Demo.empty_world
  = (Raise (AttributeError "NoneType" "confirmed"), Demo.empty_world)
  ∧ response (auth.request_email "ghost@example.com" "http://testserver/")
      Demo.empty_world
    ≠ Return "Check your email for confirmation.".
Proof.
  assert (E := request_email_unregistered Demo.empty_world
                 "ghost@example.com" "http://testserver/" eq_refl).
  split; [exact E|]. unfold response. rewrite E. discriminate.
Qed.

(** ** Refresh *)

Lemma refresh_token_stale cfg w token now email row :
  auth_service.decode cfg token Refresh now = Some email →
  users w !! email = Some row →
  row_refresh_token row ≠ Some token →
  auth.refresh_token cfg token now w
  = (Raise (HTTPException 401 "Invalid refresh token"),
     after (repository_users.update_token (User.of_row email row) None) w).
Proof.
  intros Hdec Hrow Hne. unfold auth.refresh_token.
  rewrite (bind_return _ _ _ _ _ (decode_refresh_token_valid _ _ _ _ w Hdec)).
  rewrite (bind_return _ _ _ _ _ (get_user_by_email_found _ _ _ Hrow)).
  simpl. rewrite bool_decide_eq_true_2 by done. reflexivity.
Qed.

Lemma refresh_token_match cfg w token now email row :
  auth_service.decode cfg token Refresh now = Some email →
  users w !! email = Some row →
  row_refresh_token row = Some token →
  auth.refresh_token cfg token now w
  = (Return (TokenModel.mk
               (auth_service.create_access_token cfg email now)
               (auth_service.create_refresh_token cfg email now) "bearer"),
     after (repository_users.update_token (User.of_row email row)
              (Some (auth_service.create_refresh_token cfg email now))) w).
Proof.
  intros Hdec Hrow Heq. unfold auth.refresh_token.
  rewrite (bind_return _ _ _ _ _ (decode_refresh_token_valid _ _ _ _ w Hdec)).
  rewrite (bind_return _ _ _ _ _ (get_user_by_email_found _ _ _ Hrow)).
  simpl. rewrite bool_decide_eq_false_2 by (intros H; by apply H).
  reflexivity.
Qed.

Lemma refresh_token_no_user cfg w token now email :
  auth_service.decode cfg token Refresh now = Some email →
  users w !! email = None →
  auth.refresh_token cfg token now w
  = (Raise (AttributeError "NoneType" "refresh_token"), w).
Proof.
  intros Hdec Habsent. unfold auth.refresh_token.
  rewrite (bind_return _ _ _ _ _ (decode_refresh_token_valid _ _ _ _ w Hdec)).
  rewrite (bind_return _ _ _ _ _ (get_user_by_email_absent _ _ Habsent)).
  reflexivity.
Qed.

Lemma refresh_token_undecodable cfg w token now :
  auth_service.decode cfg token Refresh now = None →
  auth.refresh_token cfg token now w
  = (Raise (HTTPException 401 "Invalid token"), w).
Proof.
  intros Hdec. unfold auth.refresh_token.
  by rewrite (bind_raise _ _ _ _ _ (decode_refresh_token_invalid _ _ _ w Hdec)).
Qed.

(** The stale branch, in terms of what is observable afterwards. *)
Lemma refresh_stale_cleared cfg w token now email row :
  auth_service.decode cfg token Refresh now = Some email →
  users w !! email = Some row →
  row_refresh_token row ≠ Some token →
  response (auth.refresh_token cfg token now) w
  = Raise (HTTPException 401 "Invalid refresh token")
  ∧ stored_refresh_token (after (auth.refresh_token cfg token now) w) email
    = None.
Proof.
  intros Hdec Hrow Hne.
  assert (E := refresh_token_stale _ _ _ _ _ _ Hdec Hrow Hne).
  rewrite (response_eq _ _ _ _ E), (after_eq _ _ _ _ E).
  split; [done|]. unfold stored_refresh_token.
  rewrite update_token_lookup, decide_True by done. by rewrite Hrow.
Qed.

(** C2.  A presented token that decodes as a refresh token for [email] but
    is not the value stored on that user's record makes [refresh_token] raise
    401 "Invalid refresh token", and the world it leaves has the stored
    refresh token of that user cleared: the rest of the row, every other
    row, the task queue and the outbox are as before. *)
Theorem refresh_stale_token_clears_and_fails cfg w token now email row :
  auth_service.decode cfg token Refresh now = Some email →
  users w !! email = Some row →
  row_refresh_token row ≠ Some token →
  let w' := after (auth.refresh_token cfg token now) w in
  response (auth.refresh_token cfg token now) w
  = Raise (HTTPException status.HTTP_401_UNAUTHORIZED "Invalid refresh token")
  ∧ users w' !! email
    = Some (mkRow (row_username row) (row_password row)
                  (row_confirmed row) None)
  ∧ stored_refresh_token w' email = None
  ∧ (∀ other, other ≠ email → users w' !! other = users w !! other)
  ∧ background_tasks w' = background_tasks w
  ∧ outbox w' = outbox w.
Proof.
  intros Hdec Hrow Hne. cbv zeta.
  assert (E := refresh_token_stale _ _ _ _ _ _ Hdec Hrow Hne).
  rewrite (response_eq _ _ _ _ E), (after_eq _ _ _ _ E).
  assert (Hl := update_token_lookup (User.of_row email row) None w email).
  rewrite decide_True, Hrow in Hl by done.
  split; [done|]. split; [exact Hl|].
  split; [unfold stored_refresh_token; by rewrite Hl|].
  split; [|done].
  intros other Hother.
  rewrite update_token_lookup. simpl. by rewrite decide_False.
Qed.

Lemma refresh_stale_token_clears_and_fails_witness :
  let w := Demo.world_holding (Some (Demo.alice_token 8)) in
  let w' := after (auth.refresh_token Demo.cfg (Demo.alice_token 5) 10) w in
  response (auth.refresh_token Demo.cfg (Demo.alice_token 5) 10) w
  = Raise (HTTPException 401 "Invalid refresh token")
  ∧ stored_refresh_token w' "alice@example.com" = None.
Proof.
  destruct (refresh_stale_token_clears_and_fails Demo.cfg
              (Demo.world_holding (Some (Demo.alice_token 8)))
              (Demo.alice_token 5) 10 "alice@example.com"
              (Demo.alice_holding (Some (Demo.alice_token 8))))
    as (H1 & _ & H3 & _).
  - reflexivity.
  - reflexivity.
  - discriminate.
  - split; [exact H1 | exact H3].
Defined.

(** ** Login *)

Lemma login_unknown cfg w email password now :
  users w !! email = None →
  auth.login cfg email password now w
  = (Raise (HTTPException 401 "Invalid email"), w).
Proof.
  intros Habsent. unfold auth.login.
  by rewrite (bind_return _ _ _ _ _ (get_user_by_email_absent _ _ Habsent)).
Qed.

Lemma login_unconfirmed cfg w email password now row :
  users w !! email = Some row →
  row_confirmed row = false →
  auth.login cfg email password now w
  = (Raise (HTTPException 401 "Email not confirmed"), w).
Proof.
  intros Hrow Hc. unfold auth.login.
  rewrite (bind_return _ _ _ _ _ (get_user_by_email_found _ _ _ Hrow)).
  simpl. by rewrite Hc.
Qed.

Lemma login_bad_password cfg w email password now row :
  users w !! email = Some row →
  row_confirmed row = true →
  auth_service.verify_password password (row_password row) = false →
  auth.login cfg email password now w
  = (Raise (HTTPException 401 "Invalid password"), w).
Proof.
  intros Hrow Hc Hv. unfold auth.login.
  rewrite (bind_return _ _ _ _ _ (get_user_by_email_found _ _ _ Hrow)).
  simpl. by rewrite Hc, Hv.
Qed.

Lemma login_ok cfg w email password now row :
  users w !! email = Some row →
  row_confirmed row = true →
  auth_service.verify_password password (row_password row) = true →
  auth.login cfg email password now w
  = (Return (TokenModel.mk
               (auth_service.create_access_token cfg email now)
               (auth_service.create_refresh_token cfg email now) "bearer"),
     after (repository_users.update_token (User.of_row email row)
              (Some (auth_service.create_refresh_token cfg email now))) w).
Proof.
  intros Hrow Hc Hv. unfold auth.login.
  rewrite (bind_return _ _ _ _ _ (get_user_by_email_found _ _ _ Hrow)).
  simpl. by rewrite Hc, Hv.
Qed.

(** A login that returns went through all three checks. *)
Lemma login_Return_inv cfg w email password now tm w' :
  auth.login cfg email password now w = (Return tm, w') →
  ∃ row, users w !! email = Some row
         ∧ row_confirmed row = true
         ∧ auth_service.verify_password password (row_password row) = true
         ∧ tm = TokenModel.mk
                  (auth_service.create_access_token cfg email now)
                  (auth_service.create_refresh_token cfg email now) "bearer"
         ∧ w' = after (repository_users.update_token (User.of_row email row)
                  (Some (auth_service.create_refresh_token cfg email now))) w.
Proof.
  intros E. destruct (users w !! email) as [row|] eqn:Hrow.
  - destruct (row_confirmed row) eqn:Hc.
    + destruct (auth_service.verify_password password (row_password row))
        eqn:Hv.
      * rewrite (login_ok _ _ _ _ _ _ Hrow Hc Hv) in E.
        injection E as <- <-. by exists row.
      * by rewrite (login_bad_password _ _ _ _ _ _ Hrow Hc Hv) in E.
    + by rewrite (login_unconfirmed _ _ _ _ _ _ Hrow Hc) in E.
  - by rewrite (login_unknown _ _ _ _ _ Hrow) in E.
Qed.

(** C3 (amended).  A login with an unregistered email and a login of a
    registered, confirmed user with a wrong password both raise the same
    unauthorized status 401 and leave the world untouched, but the details
    differ: "Invalid email" for the first, "Invalid password" for the
    second. *)
Theorem login_failures_same_status_distinct_detail
    cfg w unknown known password password' now row :
  users w !! unknown = None →
  users w !! known = Some row →
  row_confirmed row = true →
  auth_service.verify_password password' (row_password row) = false →
  auth.login cfg unknown password now w
  = (Raise (HTTPException status.HTTP_401_UNAUTHORIZED "Invalid email"), w)
  ∧ auth.login cfg known password' now w
    = (Raise (HTTPException status.HTTP_401_UNAUTHORIZED "Invalid password"),
       w)
  ∧ "Invalid email" ≠ "Invalid password".
Proof.
  intros Hu Hk Hc Hv. split; [|split].
  - by apply login_unknown.
  - by eapply login_bad_password.
  - discriminate.
Qed.

Lemma login_failures_same_status_distinct_detail_witness :
  auth.login Demo.cfg "nobody@example.com" "guess" 5 Demo.world0
  = (Raise (HTTPException 401 "Invalid email"), Demo.world0)
  ∧ auth.login Demo.cfg "alice@example.com" "guess" 5 Demo.world0
    = (Raise (HTTPException 401 "Invalid password"), Demo.world0)
  ∧ "Invalid email" ≠ "Invalid password".
Proof.
  apply (login_failures_same_status_distinct_detail Demo.cfg Demo.world0
           "nobody@example.com" "alice@example.com" "guess" "guess" 5
           Demo.alice); reflexivity.
Defined.

(** C3 as stated fails: in one and the same world the failure for an
    unregistered email and the failure for a registered, confirmed user with
    a wrong password are different responses, so the response tells whether
    the account exists. *)
Lemma login_failure_reveals_account_existence :
  users Demo.world0 !! "nobody@example.com" = None
  ∧ users Demo.world0 !! "alice@example.com" = Some Demo.alice
  ∧ row_confirmed Demo.alice = true
  ∧ auth_service.verify_password "guess" (row_password Demo.alice) = false
  ∧ response (auth.login Demo.cfg "nobody@example.com" "guess" 5) Demo.world0
    ≠ response (auth.login Demo.cfg "alice@example.com" "guess" 5)
        Demo.world0.
Proof.
  repeat split. vm_compute. discriminate.
Qed.

(** C6.  For a registered user whose [confirmed] flag is false, login raises
    401 "Email not confirmed" whatever password is supplied, correct or
    not, and changes nothing. *)
Theorem login_unconfirmed_fails_regardless_of_password
    cfg w email password now row :
  users w !! email = Some row →
  row_confirmed row = false →
  auth.login cfg email password now w
  = (Raise (HTTPException status.HTTP_401_UNAUTHORIZED "Email not confirmed"),
     w).
Proof. apply login_unconfirmed. Qed.

Lemma login_unconfirmed_fails_regardless_of_password_witness :
  auth_service.verify_password "hunter2" (row_password Demo.bob) = true
  ∧ auth.login Demo.cfg "bob@example.com" "hunter2" 5 Demo.world0
    = (Raise (HTTPException 401 "Email not confirmed"), Demo.world0)
  ∧ auth.login Demo.cfg "bob@example.com" "wrong" 5 Demo.world0
    = (Raise (HTTPException 401 "Email not confirmed"), Demo.world0).
Proof.
  split; [reflexivity|]. split.
  - apply (login_unconfirmed_fails_regardless_of_password Demo.cfg
             Demo.world0 "bob@example.com" "hunter2" 5 Demo.bob);
      reflexivity.
  - apply (login_unconfirmed_fails_regardless_of_password Demo.cfg
             Demo.world0 "bob@example.com" "wrong" 5 Demo.bob);
      reflexivity.
Defined.

(** ** Rotation of the stored refresh token *)

Lemma stored_after_update_token w email row token :
  users w !! email = Some row →
  stored_refresh_token
    (after (repository_users.update_token (User.of_row email row) token) w)
    email
  = token.
Proof.
  intros Hrow. unfold stored_refresh_token.
  rewrite update_token_lookup. simpl.
  rewrite decide_True by done. by rewrite Hrow.
Qed.

Lemma row_after_update_token w email row token :
  users w !! email = Some row →
  users (after (repository_users.update_token (User.of_row email row) token)
           w) !! email
  = Some (mkRow (row_username row) (row_password row) (row_confirmed row)
                token).
Proof.
  intros Hrow. rewrite update_token_lookup. simpl.
  rewrite decide_True by done. by rewrite Hrow.
Qed.


(** A refresh token is accepted by [decode] from its issue until its
    lifetime has elapsed. *)
Lemma decode_create_refresh_token cfg email t now :
  now < t + refresh_ttl cfg →
  auth_service.decode cfg (auth_service.create_refresh_token cfg email t)
    Refresh now = Some email.
Proof.
  intros Hlt. apply decode_Some.
  by exists (mkClaims email Refresh t (t + refresh_ttl cfg)).
Qed.


Lemma decode_create_refresh_token_sub cfg email t now e :
  auth_service.decode cfg (auth_service.create_refresh_token cfg email t)
    Refresh now = Some e →
  e = email.
Proof.
  intros (payload & E & <- & _)%decode_Some.
  unfold auth_service.create_refresh_token, auth_service.issue in E.
  by injection E as <-.
Qed.





(** ** Confirmation *)

Lemma confirmed_email_already cfg w token now email row :
  auth_service.decode cfg token EmailConfirmation now = Some email →
  users w !! email = Some row →
  row_confirmed row = true →
  auth.confirmed_email cfg token now w
  = (Return "Your email is already confirmed", w).
Proof.
  intros Hdec Hrow Hc. unfold auth.confirmed_email.
  rewrite (bind_return _ _ _ _ _ (get_email_from_token_valid _ _ _ _ w Hdec)).
  rewrite (bind_return _ _ _ _ _ (get_user_by_email_found _ _ _ Hrow)).
  simpl. by rewrite Hc.
Qed.

Lemma confirmed_email_first cfg w token now email row :
  auth_service.decode cfg token EmailConfirmation now = Some email →
  users w !! email = Some row →
  row_confirmed row = false →
  auth.confirmed_email cfg token now w
  = (Return "Email confirmed",
     after (repository_users.confirmed_email email) w).
Proof.
  intros Hdec Hrow Hc. unfold auth.confirmed_email.
  rewrite (bind_return _ _ _ _ _ (get_email_from_token_valid _ _ _ _ w Hdec)).
  rewrite (bind_return _ _ _ _ _ (get_user_by_email_found _ _ _ Hrow)).
  simpl. by rewrite Hc.
Qed.

(** C7.  Let a confirmation token decode to the email of a registered user.
    If the user is already confirmed, [confirmed_email] returns "Your email
    is already confirmed" and the world is exactly as before.  If the user
    is not yet confirmed, it returns "Email confirmed" and the only change
    is that this user's flag is now true.  Either way, presenting the same
    token a second time, while it still decodes, returns the "already
    confirmed" message and changes nothing: both runs succeed. *)
Theorem confirm_is_idempotent cfg w token now email row :
  auth_service.decode cfg token EmailConfirmation now = Some email →
  users w !! email = Some row →
  let w1 := after (auth.confirmed_email cfg token now) w in
  (row_confirmed row = true →
     auth.confirmed_email cfg token now w
     = (Return "Your email is already confirmed", w))
  ∧ (row_confirmed row = false →
       response (auth.confirmed_email cfg token now) w
       = Return "Email confirmed"
       ∧ users w1 !! email
         = Some (mkRow (row_username row) (row_password row) true
                       (row_refresh_token row))
       ∧ (∀ other, other ≠ email → users w1 !! other = users w !! other)
       ∧ background_tasks w1 = background_tasks w
       ∧ outbox w1 = outbox w)
  ∧ (∃ message,
       response (auth.confirmed_email cfg token now) w = Return message)
  ∧ (∀ now',
       auth_service.decode cfg token EmailConfirmation now' = Some email →
       auth.confirmed_email cfg token now' w1
       = (Return "Your email is already confirmed", w1)).
Proof.
  intros Hdec Hrow. cbv zeta.
  destruct (row_confirmed row) eqn:Hc.
  - assert (E := confirmed_email_already _ _ _ _ _ _ Hdec Hrow Hc).
    rewrite (response_eq _ _ _ _ E), (after_eq _ _ _ _ E).
    split; [done|]. split; [done|]. split; [by eexists|].
    intros now' Hdec'. by eapply confirmed_email_already.
  - assert (E := confirmed_email_first _ _ _ _ _ _ Hdec Hrow Hc).
    rewrite (response_eq _ _ _ _ E), (after_eq _ _ _ _ E).
    assert (Hl : users (after (repository_users.confirmed_email email) w)
                   !! email
                 = Some (mkRow (row_username row) (row_password row) true
                               (row_refresh_token row))).
    { rewrite confirmed_email_lookup, decide_True by done. by rewrite Hrow. }
    split; [done|]. split; [|split; [by eexists|]].
    + intros _. split; [done|]. split; [exact Hl|]. split; [|done].
      intros other Hother.
      rewrite confirmed_email_lookup. by rewrite decide_False.
    + intros now' Hdec'.
      by eapply confirmed_email_already.
Qed.

Lemma confirm_is_idempotent_witness :
  let w := Demo.world0 in
  let w1 := after (auth.confirmed_email Demo.cfg Demo.bob_email_token 3) w in
  response (auth.confirmed_email Demo.cfg Demo.bob_email_token 3) w
  = Return "Email confirmed"
  ∧ is_confirmed w "bob@example.com" = false
  ∧ is_confirmed w1 "bob@example.com" = true
  ∧ auth.confirmed_email Demo.cfg Demo.bob_email_token 4 w1
    = (Return "Your email is already confirmed", w1).
Proof.
  cbv zeta.
  destruct (confirm_is_idempotent Demo.cfg Demo.world0 Demo.bob_email_token
              3 "bob@example.com" Demo.bob)
    as (_ & H2 & _ & H4).
  - reflexivity.
  - reflexivity.
  - destruct H2 as (H21 & _); [reflexivity|].
    split; [exact H21|]. split; [reflexivity|]. split; [reflexivity|].
    apply (H4 4). reflexivity.
Defined.

(** ** Signup *)

Lemma signup_conflict body salt base_url w :
  is_Some (users w !! UserModel.email body) →
  auth.signup body salt base_url w
  = (Raise (HTTPException 409 "Account already exists"), w).
Proof.
  intros [row Hrow]. unfold auth.signup.
  rewrite (bind_return _ _ _ _ _ (get_user_by_email_found _ _ _ Hrow)).
  rewrite bool_decide_eq_true_2 by (by eexists). reflexivity.
Qed.

Lemma signup_created body salt base_url w :
  users w !! UserModel.email body = None →
  let stored := mkRow (UserModel.username body)
                  (auth_service.get_password_hash salt
                     (UserModel.password body)) false None in
  auth.signup body salt base_url w
  = (Return (User.of_row (UserModel.email body) stored,
             "User successfully created"),
     mkWorld (<[UserModel.email body := stored]> (users w))
             (background_tasks w
              ++ [send_email (UserModel.email body) (UserModel.username body)
                             base_url])
             (outbox w)).
Proof.
  intros Habsent. cbv zeta. unfold auth.signup.
  rewrite (bind_return _ _ _ _ _ (get_user_by_email_absent _ _ Habsent)).
  rewrite bool_decide_eq_false_2 by (intros [? ?]; done).
  reflexivity.
Qed.

(** The hasher accepts the plaintext it hashed, under any salt. *)
Lemma verify_password_get_password_hash salt plaintext :
  auth_service.verify_password plaintext
    (auth_service.get_password_hash salt plaintext) = true.
Proof.
  unfold auth_service.verify_password, auth_service.get_password_hash.
  simpl. by rewrite bool_decide_eq_true_2.
Qed.

(** C8.  [signup] raises the 409 conflict exactly when the email of the body
    is already registered, and then changes nothing.  Otherwise it stores a
    new unconfirmed user whose password field is the hash of the supplied
    plaintext (the hasher's output, which verifies against that plaintext),
    returns that user with "User successfully created", and appends the
    confirmation-email send to the background queue.  The queued send runs
    after the response exists: whether the notifier delivers or not, the
    response and the user table are the same. *)
Theorem signup_conflict_iff_registered cfg body salt base_url w :
  ((∃ detail,
      response (auth.signup body salt base_url) w
      = Raise (HTTPException status.HTTP_409_CONFLICT detail))
   ↔ is_Some (users w !! UserModel.email body))
  ∧ (is_Some (users w !! UserModel.email body) →
       auth.signup body salt base_url w
       = (Raise (HTTPException status.HTTP_409_CONFLICT
                               "Account already exists"), w))
  ∧ (users w !! UserModel.email body = None →
       let stored := mkRow (UserModel.username body)
                       (auth_service.get_password_hash salt
                          (UserModel.password body)) false None in
       auth.signup body salt base_url w
       = (Return (User.of_row (UserModel.email body) stored,
                  "User successfully created"),
          mkWorld (<[UserModel.email body := stored]> (users w))
                  (background_tasks w
                   ++ [send_email (UserModel.email body)
                                  (UserModel.username body) base_url])
                  (outbox w))
       ∧ ph_digest (row_password stored)
         = KDF (ph_salt (row_password stored)) (UserModel.password body)
       ∧ auth_service.verify_password (UserModel.password body)
           (row_password stored) = true)
  ∧ (∀ delivers delivers' now,
       (serve cfg delivers now (auth.signup body salt base_url) w).1
       = (serve cfg delivers' now (auth.signup body salt base_url) w).1
       ∧ users (serve cfg delivers now
                  (auth.signup body salt base_url) w).2
         = users (serve cfg delivers' now
                    (auth.signup body salt base_url) w).2).
Proof.
  split; [|split; [|split]].
  - split.
    + intros [detail E].
      destruct (users w !! UserModel.email body) as [row|] eqn:Hrow;
        [by eexists|].
      by rewrite (response_eq _ _ _ _ (signup_created _ salt base_url _ Hrow))
        in E.
    + intros Hsome. exists "Account already exists".
      by rewrite (response_eq _ _ _ _ (signup_conflict _ salt base_url _ Hsome)).
  - apply signup_conflict.
  - intros Habsent. cbv zeta. split; [by apply signup_created|].
    split; [done|]. apply verify_password_get_password_hash.
  - intros delivers delivers' now. by unfold serve, run_background_tasks.
Qed.

Lemma signup_conflict_iff_registered_witness :
  auth.signup Demo.carol 11 "http://testserver/" Demo.world0
  = (Return (User.mk "carol@example.com" "carol"
               (auth_service.get_password_hash 11 "s3cret") false None,
             "User successfully created"),
     mkWorld (<["carol@example.com" :=
                  mkRow "carol" (auth_service.get_password_hash 11 "s3cret")
                        false None]> (users Demo.world0))
             [send_email "carol@example.com" "carol" "http://testserver/"]
             [])
  ∧ auth.signup (UserModel.mk "eve" "alice@example.com" "pw") 12
      "http://testserver/" Demo.world0
    = (Raise (HTTPException 409 "Account already exists"), Demo.world0).
Proof.
  split.
  - destruct (signup_conflict_iff_registered Demo.cfg Demo.carol 11
                "http://testserver/" Demo.world0) as (_ & _ & H & _).
    destruct H as (H & _); [reflexivity|]. exact H.
  - destruct (signup_conflict_iff_registered Demo.cfg
                (UserModel.mk "eve" "alice@example.com" "pw") 12
                "http://testserver/" Demo.world0) as (_ & H & _).
    apply H. exists Demo.alice. reflexivity.
Defined.

(** ** Totality of refresh *)

(** C10.  [refresh_token] raises an attribute error exactly when the
    presented token decodes as a refresh token whose subject has no user
    record.  In that case the world is unchanged and the response is neither
    a token pair nor a 401.  When the decoded subject has a record, the
    response is a token pair or the 401 of the stale detection. *)
Theorem refresh_faults_iff_decoded_subject_absent cfg w token now :
  ((∃ obj attr,
      response (auth.refresh_token cfg token now) w
      = Raise (AttributeError obj attr))
   ↔ (∃ email,
        auth_service.decode cfg token Refresh now = Some email
        ∧ users w !! email = None))
  ∧ (∀ email,
       auth_service.decode cfg token Refresh now = Some email →
       users w !! email = None →
       auth.refresh_token cfg token now w
       = (Raise (AttributeError "NoneType" "refresh_token"), w)
       ∧ (∀ tm, response (auth.refresh_token cfg token now) w ≠ Return tm)
       ∧ (∀ detail,
            response (auth.refresh_token cfg token now) w
            ≠ Raise (HTTPException status.HTTP_401_UNAUTHORIZED detail)))
  ∧ (∀ email,
       auth_service.decode cfg token Refresh now = Some email →
       is_Some (users w !! email) →
       (∃ tm, response (auth.refresh_token cfg token now) w = Return tm)
       ∨ response (auth.refresh_token cfg token now) w
         = Raise (HTTPException status.HTTP_401_UNAUTHORIZED
                                "Invalid refresh token")).
Proof.
  split; [|split].
  - split.
    + intros (obj & attr & E).
      destruct (auth_service.decode cfg token Refresh now) as [email|]
        eqn:Hdec.
      * exists email. split; [done|].
        destruct (users w !! email) as [row|] eqn:Hrow; [|done].
        destruct (decide (row_refresh_token row = Some token)) as [Heq|Hne].
        -- by rewrite (response_eq _ _ _ _
                         (refresh_token_match _ _ _ _ _ _ Hdec Hrow Heq)) in E.
        -- by rewrite (response_eq _ _ _ _
                         (refresh_token_stale _ _ _ _ _ _ Hdec Hrow Hne)) in E.
      * by rewrite (response_eq _ _ _ _
                      (refresh_token_undecodable _ w _ _ Hdec)) in E.
    + intros (email & Hdec & Habsent).
      exists "NoneType", "refresh_token".
      by rewrite (response_eq _ _ _ _
                    (refresh_token_no_user _ _ _ _ _ Hdec Habsent)).
  - intros email Hdec Habsent.
    assert (E := refresh_token_no_user _ _ _ _ _ Hdec Habsent).
    rewrite (response_eq _ _ _ _ E). by split.
  - intros email Hdec [row Hrow].
    destruct (decide (row_refresh_token row = Some token)) as [Heq|Hne].
    + left. eexists.
      by rewrite (response_eq _ _ _ _
                    (refresh_token_match _ _ _ _ _ _ Hdec Hrow Heq)).
    + right.
      by rewrite (response_eq _ _ _ _
                    (refresh_token_stale _ _ _ _ _ _ Hdec Hrow Hne)).
Qed.

Lemma refresh_faults_iff_decoded_subject_absent_witness :
  let ghost := auth_service.create_refresh_token Demo.cfg
                 "ghost@example.com" 5 in
  auth_service.decode Demo.cfg ghost Refresh 6 = Some "ghost@example.com"
  ∧ users Demo.world0 !! "ghost@example.com" = None
  ∧ auth.refresh_token Demo.cfg ghost 6 Demo.world0
    = (Raise (AttributeError "NoneType" "refresh_token"), Demo.world0).
Proof.
  cbv zeta. split; [reflexivity|]. split; [reflexivity|].
  destruct (refresh_faults_iff_decoded_subject_absent Demo.cfg Demo.world0
              (auth_service.create_refresh_token Demo.cfg
                 "ghost@example.com" 5) 6) as (_ & H & _).
  destruct (H "ghost@example.com") as (E & _); [reflexivity|reflexivity|].
  exact E.
Defined.

(** ** The confirmed flag along a run *)

(** Background work never touches the user table. *)
Lemma users_serve {A} cfg delivers now (route : M A) w :
  users (serve cfg delivers now route w).2 = users (after route w).
Proof. reflexivity. Qed.

Lemma users_after_signup body salt base_url w :
  users (after (auth.signup body salt base_url) w)
  = match users w !! UserModel.email body with
    | Some _ => users w
    | None =>
        <[UserModel.email body :=
            mkRow (UserModel.username body)
                  (auth_service.get_password_hash salt
                     (UserModel.password body)) false None]> (users w)
    end.
Proof.
  destruct (users w !! UserModel.email body) as [row|] eqn:Hrow.
  - by rewrite (after_eq _ _ _ _
                  (signup_conflict _ salt base_url _ (mk_is_Some _ _ Hrow))).
  - by rewrite (after_eq _ _ _ _ (signup_created _ salt base_url _ Hrow)).
Qed.

Lemma users_after_login cfg username password now w :
  users (after (auth.login cfg username password now) w) = users w
  ∨ ∃ user token,
      users (after (auth.login cfg username password now) w)
      = users (after (repository_users.update_token user token) w).
Proof.
  destruct (users w !! username) as [row|] eqn:Hrow.
  - destruct (row_confirmed row) eqn:Hc.
    + destruct (auth_service.verify_password password (row_password row))
        eqn:Hv.
      * right. do 2 eexists.
        by rewrite (after_eq _ _ _ _ (login_ok cfg _ _ _ now _ Hrow Hc Hv)).
      * left.
        by rewrite (after_eq _ _ _ _
                      (login_bad_password cfg _ _ _ now _ Hrow Hc Hv)).
    + left.
      by rewrite (after_eq _ _ _ _ (login_unconfirmed cfg _ _ password now _
                                      Hrow Hc)).
  - left. by rewrite (after_eq _ _ _ _ (login_unknown cfg _ _ password now
                                          Hrow)).
Qed.

Lemma users_after_refresh_token cfg token now w :
  users (after (auth.refresh_token cfg token now) w) = users w
  ∨ ∃ user token',
      users (after (auth.refresh_token cfg token now) w)
      = users (after (repository_users.update_token user token') w).
Proof.
  destruct (auth_service.decode cfg token Refresh now) as [email|] eqn:Hdec.
  - destruct (users w !! email) as [row|] eqn:Hrow.
    + destruct (decide (row_refresh_token row = Some token)) as [Heq|Hne].
      * right. do 2 eexists.
        by rewrite (after_eq _ _ _ _
                      (refresh_token_match _ _ _ _ _ _ Hdec Hrow Heq)).
      * right. do 2 eexists.
        by rewrite (after_eq _ _ _ _
                      (refresh_token_stale _ _ _ _ _ _ Hdec Hrow Hne)).
    + left. by rewrite (after_eq _ _ _ _
                          (refresh_token_no_user _ _ _ _ _ Hdec Hrow)).
  - left. by rewrite (after_eq _ _ _ _
                        (refresh_token_undecodable _ w _ _ Hdec)).
Qed.

Lemma users_after_request_email email base_url w :
  users (after (auth.request_email email base_url) w) = users w.
Proof.
  destruct (users w !! email) as [row|] eqn:Hrow.
  - unfold after, auth.request_email.
    rewrite (bind_return _ _ _ _ _ (get_user_by_email_found _ _ _ Hrow)).
    simpl. by destruct (row_confirmed row).
  - by rewrite (after_eq _ _ _ _ (request_email_unregistered _ _ base_url Hrow)).
Qed.

Lemma users_after_confirmed_email cfg token now w :
  users (after (auth.confirmed_email cfg token now) w) = users w
  ∨ ∃ email,
      users (after (auth.confirmed_email cfg token now) w)
      = users (after (repository_users.confirmed_email email) w).
Proof.
  unfold auth.confirmed_email, auth_service.get_email_from_token.
  destruct (auth_service.decode cfg token EmailConfirmation now)
    as [email|] eqn:Hdec; [|by left].
  unfold after at 1 2, bind, ret. simpl.
  destruct (users w !! email) as [row|] eqn:Hrow; simpl; [|by left].
  destruct (row_confirmed row); [by left|].
  right. by exists email.
Qed.

(** One served request leaves every existing row in place, and changes its
    flag only from false to true and only when the request is a confirm. *)
Lemma step_confirmed_flag cfg delivers w r email row :
  users w !! email = Some row →
  ∃ row',
    users (step cfg delivers w r) !! email = Some row'
    ∧ (row_confirmed row' = row_confirmed row
       ∨ (row_confirmed row' = true
          ∧ ∃ token, r.2 = ConfirmedEmail token)).
Proof.
  intros Hrow. destruct r as [now req]. unfold step. cbn [fst snd].
  destruct req as [body salt base_url|username password|token
                  |email' base_url|token]; rewrite users_serve.
  - rewrite users_after_signup.
    destruct (users w !! UserModel.email body) eqn:Hbody.
    + exists row. by split; [|left].
    + exists row. split; [|by left].
      rewrite lookup_insert_ne; [done|]. intros E. congruence.
  - destruct (users_after_login cfg username password now w)
      as [->|(user & tok & ->)].
    + exists row. by split; [|left].
    + rewrite update_token_lookup, Hrow.
      case_decide; eexists; (split; [reflexivity|by left]).
  - destruct (users_after_confirmed_email cfg token now w)
      as [->|(email' & ->)].
    + exists row. by split; [|left].
    + rewrite confirmed_email_lookup, Hrow.
      case_decide; eexists; (split; [reflexivity|]).
      * right. split; [done|]. by exists token.
      * by left.
  - rewrite users_after_request_email. exists row. by split; [|left].
  - destruct (users_after_refresh_token cfg token now w)
      as [->|(user & tok & ->)].
    + exists row. by split; [|left].
    + rewrite update_token_lookup, Hrow.
      case_decide; eexists; (split; [reflexivity|by left]).
Qed.

Lemma step_keeps_confirmed cfg delivers w r email :
  is_confirmed w email = true →
  is_confirmed (step cfg delivers w r) email = true.
Proof.
  unfold is_confirmed.
  destruct (users w !! email) as [row|] eqn:Hrow; [|done].
  simpl. intros Hc.
  destruct (step_confirmed_flag cfg delivers w r email row Hrow)
    as (row' & -> & [E|[E _]]); simpl; congruence.
Qed.

Lemma run_keeps_confirmed cfg delivers trace w email :
  is_confirmed w email = true →
  is_confirmed (run cfg delivers trace w) email = true.
Proof.
  unfold run. revert w.
  induction trace as [|r trace IH]; intros w Hc; [done|].
  simpl. apply IH. by apply step_keeps_confirmed.
Qed.

(** C9.  Along every sequence of served requests (signup, login, confirm,
    request confirmation, refresh, at any clock readings and with any
    notifier), an email whose confirmed flag is true keeps it true.  A
    single request never removes a row, and the flag of a row differs
    after the request only if the request is a confirm and the new value is
    true. *)
Theorem confirmed_flag_is_monotone cfg delivers email :
  (∀ trace w,
     is_confirmed w email = true →
     is_confirmed (run cfg delivers trace w) email = true)
  ∧ (∀ r w row,
       users w !! email = Some row →
       ∃ row',
         users (step cfg delivers w r) !! email = Some row'
         ∧ (row_confirmed row' ≠ row_confirmed row →
            row_confirmed row' = true
            ∧ ∃ token, r.2 = ConfirmedEmail token)).
Proof.
  split.
  - intros trace w. apply run_keeps_confirmed.
  - intros r w row Hrow.
    destruct (step_confirmed_flag cfg delivers w r email row Hrow)
      as (row' & E & Hflag).
    exists row'. split; [exact E|].
    intros Hne. by destruct Hflag as [?|?].
Qed.

Lemma confirmed_flag_is_monotone_witness :
  is_confirmed Demo.world0 "bob@example.com" = false
  ∧ is_confirmed
      (run Demo.cfg Demo.reliable [(3, ConfirmedEmail Demo.bob_email_token)]
         Demo.world0) "bob@example.com" = true
  ∧ is_confirmed
      (run Demo.cfg Demo.broken
         [(4, Login "bob@example.com" "hunter2");
          (5, Signup (UserModel.mk "bobby" "bob@example.com" "pw") 3
                "http://testserver/");
          (6, RequestEmail "bob@example.com" "http://testserver/");
          (7, RefreshToken (Demo.alice_token 1));
          (8, ConfirmedEmail Demo.bob_email_token);
          (9, RefreshToken
                (auth_service.create_refresh_token Demo.cfg
                   "bob@example.com" 1))]
         (run Demo.cfg Demo.reliable
            [(3, ConfirmedEmail Demo.bob_email_token)] Demo.world0))
      "bob@example.com" = true.
Proof.
  split; [reflexivity|]. split; [reflexivity|].
  destruct (confirmed_flag_is_monotone Demo.cfg Demo.broken
              "bob@example.com") as [H _].
  apply H. reflexivity.
Defined.

(** * Further properties of the routes *)

(** ** Login: outcome and footprint *)

(** X1.  Login returns a token pair exactly for a registered, confirmed user
    whose password verifies; the pair is marked "bearer", both tokens are
    issued for the looked-up email, and the returned refresh token is the
    one left stored on the user. *)
Theorem login_returns_iff_confirmed_and_verified
    cfg w username password now :
  ((∃ tm, response (auth.login cfg username password now) w = Return tm)
   ↔ ∃ row, users w !! username = Some row
            ∧ row_confirmed row = true
            ∧ auth_service.verify_password password (row_password row)
              = true)
  ∧ (∀ tm,
       response (auth.login cfg username password now) w = Return tm →
       TokenModel.token_type tm = "bearer"
       ∧ TokenModel.access_token tm
         = auth_service.create_access_token cfg username now
       ∧ TokenModel.refresh_token tm
         = auth_service.create_refresh_token cfg username now
       ∧ stored_refresh_token
           (after (auth.login cfg username password now) w) username
         = Some (TokenModel.refresh_token tm)).
Proof.
  split.
  - split.
    + intros [tm E]. unfold response in E.
      destruct (auth.login cfg username password now w) as [r w'] eqn:L.
      simpl in E. subst r.
      apply login_Return_inv in L as (row & ? & ? & ? & _). by exists row.
    + intros (row & Hrow & Hc & Hv). eexists.
      by rewrite (response_eq _ _ _ _ (login_ok cfg _ _ _ now _ Hrow Hc Hv)).
  - intros tm E. unfold response in E. unfold after.
    destruct (auth.login cfg username password now w) as [r w'] eqn:L.
    simpl in E. subst r. simpl.
    apply login_Return_inv in L as (row & Hrow & _ & _ & -> & ->).
    simpl. repeat (split; [reflexivity|]).
    by apply stored_after_update_token.
Qed.

(** X2.  A login that fails raises 401 with one of the three details of the
    route and leaves the world exactly as it was: in particular a wrong
    guess never disturbs the stored refresh token. *)
Theorem login_failure_is_401_and_changes_nothing
    cfg w username password now e :
  response (auth.login cfg username password now) w = Raise e →
  after (auth.login cfg username password now) w = w
  ∧ ∃ detail,
      e = HTTPException status.HTTP_401_UNAUTHORIZED detail
      ∧ detail ∈ ["Invalid email"; "Email not confirmed";
                  "Invalid password"].
Proof.
  intros E.
  destruct (users w !! username) as [row|] eqn:Hrow.
  - destruct (row_confirmed row) eqn:Hc.
    + destruct (auth_service.verify_password password (row_password row))
        eqn:Hv.
      * by rewrite (response_eq _ _ _ _ (login_ok cfg _ _ _ now _ Hrow Hc Hv))
          in E.
      * assert (L := login_bad_password cfg _ _ _ now _ Hrow Hc Hv).
        rewrite (response_eq _ _ _ _ L) in E.
        rewrite (after_eq _ _ _ _ L). injection E as <-.
        split; [done|]. eexists. split; [reflexivity|set_solver].
    + assert (L := login_unconfirmed cfg _ _ password now _ Hrow Hc).
      rewrite (response_eq _ _ _ _ L) in E.
      rewrite (after_eq _ _ _ _ L). injection E as <-.
      split; [done|]. eexists. split; [reflexivity|set_solver].
  - assert (L := login_unknown cfg _ _ password now Hrow).
    rewrite (response_eq _ _ _ _ L) in E.
    rewrite (after_eq _ _ _ _ L). injection E as <-.
    split; [done|]. eexists. split; [reflexivity|set_solver].
Qed.

Lemma login_failure_is_401_and_changes_nothing_witness :
  after (auth.login Demo.cfg "alice@example.com" "guess" 9)
    (Demo.world_holding (Some (Demo.alice_token 5)))
  = Demo.world_holding (Some (Demo.alice_token 5))
  ∧ ∃ detail,
      HTTPException 401 "Invalid password" = HTTPException 401 detail
      ∧ detail ∈ ["Invalid email"; "Email not confirmed";
                  "Invalid password"].
Proof.
  apply (login_failure_is_401_and_changes_nothing Demo.cfg
           (Demo.world_holding (Some (Demo.alice_token 5)))
           "alice@example.com" "guess" 9).
  reflexivity.
Defined.

(** X3.  Whatever its outcome, login writes nothing but the stored refresh token
    of the user who logs in: username, password hash and confirmed flag of
    that row, every other row, the background queue and the outbox are
    untouched, and no row is created. *)
Theorem login_touches_only_own_refresh_token cfg w username password now :
  let w' := after (auth.login cfg username password now) w in
  background_tasks w' = background_tasks w
  ∧ outbox w' = outbox w
  ∧ (∀ other, other ≠ username → users w' !! other = users w !! other)
  ∧ match users w !! username with
    | Some row =>
        ∃ stored,
          users w' !! username
          = Some (mkRow (row_username row) (row_password row)
                        (row_confirmed row) stored)
    | None => users w' !! username = None
    end.
Proof.
  cbv zeta.
  destruct (users w !! username) as [row|] eqn:Hrow.
  - destruct (row_confirmed row) eqn:Hc.
    + destruct (auth_service.verify_password password (row_password row))
        eqn:Hv.
      * rewrite (after_eq _ _ _ _ (login_ok cfg _ _ _ now _ Hrow Hc Hv)).
        split; [done|]. split; [done|]. split.
        -- intros other Hother. rewrite update_token_lookup. simpl.
           by rewrite decide_False.
        -- eexists. rewrite (row_after_update_token _ _ _ _ Hrow).
           by rewrite ?Hc.
      * rewrite (after_eq _ _ _ _
                   (login_bad_password cfg _ _ _ now _ Hrow Hc Hv)).
        repeat (split; [done|]). exists (row_refresh_token row).
        destruct row; simpl in *; congruence.
    + rewrite (after_eq _ _ _ _
                 (login_unconfirmed cfg _ _ password now _ Hrow Hc)).
      repeat (split; [done|]). exists (row_refresh_token row).
      destruct row; simpl in *; congruence.
  - rewrite (after_eq _ _ _ _ (login_unknown cfg _ _ password now Hrow)).
    by repeat (split; [done|]).
Qed.

(** ** Refresh: acceptance and revocation *)

(** X4.  Refresh returns a token pair exactly when the presented token decodes
    as a refresh token and is, value for value, the one stored on the row
    of its subject; the pair is then issued for that subject, marked
    "bearer", and its refresh token replaces the stored one. *)
Theorem refresh_returns_iff_token_is_stored cfg w token now :
  ((∃ tm, response (auth.refresh_token cfg token now) w = Return tm)
   ↔ ∃ email row,
       auth_service.decode cfg token Refresh now = Some email
       ∧ users w !! email = Some row
       ∧ row_refresh_token row = Some token)
  ∧ (∀ tm email,
       response (auth.refresh_token cfg token now) w = Return tm →
       auth_service.decode cfg token Refresh now = Some email →
       tm = TokenModel.mk (auth_service.create_access_token cfg email now)
              (auth_service.create_refresh_token cfg email now) "bearer"
       ∧ stored_refresh_token (after (auth.refresh_token cfg token now) w)
           email
         = Some (TokenModel.refresh_token tm)).
Proof.
  assert (Hcases :
    ∀ tm, response (auth.refresh_token cfg token now) w = Return tm →
    ∃ email row,
      auth_service.decode cfg token Refresh now = Some email
      ∧ users w !! email = Some row
      ∧ row_refresh_token row = Some token).
  { intros tm E.
    destruct (auth_service.decode cfg token Refresh now) as [email|]
      eqn:Hdec.
    - destruct (users w !! email) as [row|] eqn:Hrow.
      + destruct (decide (row_refresh_token row = Some token)) as [Heq|Hne].
        * by exists email, row.
        * by rewrite (response_eq _ _ _ _
                        (refresh_token_stale _ _ _ _ _ _ Hdec Hrow Hne)) in E.
      + by rewrite (response_eq _ _ _ _
                      (refresh_token_no_user _ _ _ _ _ Hdec Hrow)) in E.
    - by rewrite (response_eq _ _ _ _
                    (refresh_token_undecodable _ w _ _ Hdec)) in E. }
  split.
  - split.
    + intros [tm E]. by eapply Hcases.
    + intros (email & row & Hdec & Hrow & Heq). eexists.
      by rewrite (response_eq _ _ _ _
                    (refresh_token_match _ _ _ _ _ _ Hdec Hrow Heq)).
  - intros tm email E Hdec.
    destruct (Hcases tm E) as (email' & row & Hdec' & Hrow & Heq).
    assert (email' = email) as -> by congruence.
    assert (L := refresh_token_match _ _ _ _ _ _ Hdec Hrow Heq).
    rewrite (response_eq _ _ _ _ L) in E. rewrite (after_eq _ _ _ _ L).
    injection E as <-. split; [done|].
    by apply stored_after_update_token.
Qed.

Lemma refresh_returns_iff_token_is_stored_witness :
  let w := Demo.world_holding (Some (Demo.alice_token 5)) in
  let tm := TokenModel.mk
              (auth_service.create_access_token Demo.cfg
                 "alice@example.com" 9)
              (Demo.alice_token 9) "bearer" in
  response (auth.refresh_token Demo.cfg (Demo.alice_token 5) 9) w = Return tm
  ∧ stored_refresh_token
      (after (auth.refresh_token Demo.cfg (Demo.alice_token 5) 9) w)
      "alice@example.com"
    = Some (Demo.alice_token 9).
Proof.
  cbv zeta. split; [reflexivity|].
  destruct (refresh_returns_iff_token_is_stored Demo.cfg
              (Demo.world_holding (Some (Demo.alice_token 5)))
              (Demo.alice_token 5) 9) as [_ H].
  destruct (H (TokenModel.mk
                 (auth_service.create_access_token Demo.cfg
                    "alice@example.com" 9)
                 (Demo.alice_token 9) "bearer") "alice@example.com")
    as [_ H2]; [reflexivity|reflexivity|exact H2].
Defined.

(** X5.  Once a stale token has been detected for a user, the session is
    revoked for everybody: whatever token is presented next for that
    subject, the legitimate holder's latest one included, refresh raises
    401 "Invalid refresh token" and the stored value stays empty.  Only a
    new login stores a token again. *)
Theorem stale_detection_revokes_every_token
    cfg w stale now email row token' now' :
  auth_service.decode cfg stale Refresh now = Some email →
  users w !! email = Some row →
  row_refresh_token row ≠ Some stale →
  auth_service.decode cfg token' Refresh now' = Some email →
  let w1 := after (auth.refresh_token cfg stale now) w in
  response (auth.refresh_token cfg token' now') w1
  = Raise (HTTPException status.HTTP_401_UNAUTHORIZED
                         "Invalid refresh token")
  ∧ stored_refresh_token (after (auth.refresh_token cfg token' now') w1)
      email
    = None.
Proof.
  intros Hdec Hrow Hne Hdec'. cbv zeta.
  rewrite (after_eq _ _ _ _ (refresh_token_stale _ _ _ _ _ _ Hdec Hrow Hne)).
  eapply refresh_stale_cleared; [exact Hdec'| |].
  - by apply row_after_update_token.
  - done.
Qed.

Lemma stale_detection_revokes_every_token_witness :
  let w := Demo.world_holding (Some (Demo.alice_token 8)) in
  let w1 := after (auth.refresh_token Demo.cfg (Demo.alice_token 5) 10) w in
  response (auth.refresh_token Demo.cfg (Demo.alice_token 8) 11) w1
  = Raise (HTTPException 401 "Invalid refresh token")
  ∧ stored_refresh_token
      (after (auth.refresh_token Demo.cfg (Demo.alice_token 8) 11) w1)
      "alice@example.com"
    = None.
Proof.
  apply (stale_detection_revokes_every_token Demo.cfg
           (Demo.world_holding (Some (Demo.alice_token 8)))
           (Demo.alice_token 5) 10 "alice@example.com"
           (Demo.alice_holding (Some (Demo.alice_token 8)))
           (Demo.alice_token 8) 11);
    [reflexivity | reflexivity | discriminate | reflexivity].
Defined.

(** X6.  Whatever its outcome, refresh writes nothing but the stored refresh
    token of one row: no row is created or removed, username, password hash
    and confirmed flag of every row are kept, and nothing is queued or
    mailed. *)
Theorem refresh_touches_only_a_refresh_token cfg w token now :
  let w' := after (auth.refresh_token cfg token now) w in
  background_tasks w' = background_tasks w
  ∧ outbox w' = outbox w
  ∧ (∀ e, users w !! e = None → users w' !! e = None)
  ∧ (∀ e row,
       users w !! e = Some row →
       users w' !! e = Some row
       ∨ (auth_service.decode cfg token Refresh now = Some e
          ∧ ∃ stored,
              users w' !! e
              = Some (mkRow (row_username row) (row_password row)
                            (row_confirmed row) stored))).
Proof.
  cbv zeta.
  destruct (auth_service.decode cfg token Refresh now) as [email|] eqn:Hdec.
  - destruct (users w !! email) as [row|] eqn:Hrow.
    + assert (∃ stored,
        after (auth.refresh_token cfg token now) w
        = after (repository_users.update_token (User.of_row email row)
                   stored) w) as [stored ->].
      { destruct (decide (row_refresh_token row = Some token)) as [Heq|Hne];
          eexists.
        - by rewrite (after_eq _ _ _ _
                        (refresh_token_match _ _ _ _ _ _ Hdec Hrow Heq)).
        - by rewrite (after_eq _ _ _ _
                        (refresh_token_stale _ _ _ _ _ _ Hdec Hrow Hne)). }
      split; [done|]. split; [done|]. split.
      * intros e He. rewrite update_token_lookup, He. by case_decide.
      * intros e row' He. rewrite update_token_lookup, He. simpl.
        case_decide as Hd; [|by left].
        right. subst e. split; [done|]. by eexists.
    + rewrite (after_eq _ _ _ _ (refresh_token_no_user _ _ _ _ _ Hdec Hrow)).
      repeat (split; [done|]). intros e row' He. by left.
  - rewrite (after_eq _ _ _ _ (refresh_token_undecodable _ w _ _ Hdec)).
    repeat (split; [done|]). intros e row' He. by left.
Qed.

(** X7.  The refresh token handed out by a successful login is accepted by
    refresh for as long as it is unexpired; the call returns a new pair for
    the same user and stores the new refresh token. *)
Theorem login_then_refresh_succeeds cfg w email password t1 t2 tm w1 :
  auth.login cfg email password t1 w = (Return tm, w1) →
  t2 < t1 + refresh_ttl cfg →
  response (auth.refresh_token cfg (TokenModel.refresh_token tm) t2) w1
  = Return (TokenModel.mk (auth_service.create_access_token cfg email t2)
              (auth_service.create_refresh_token cfg email t2) "bearer")
  ∧ stored_refresh_token
      (after (auth.refresh_token cfg (TokenModel.refresh_token tm) t2) w1)
      email
    = Some (auth_service.create_refresh_token cfg email t2).
Proof.
  intros L Hexp.
  apply login_Return_inv in L as (row & Hrow & _ & _ & -> & ->).
  simpl TokenModel.refresh_token.
  assert (Hrow1 := row_after_update_token w email row
    (Some (auth_service.create_refresh_token cfg email t1)) Hrow).
  assert (R := refresh_token_match cfg _ _ t2 email _
    (decode_create_refresh_token cfg email t1 t2 Hexp) Hrow1 eq_refl).
  rewrite (response_eq _ _ _ _ R), (after_eq _ _ _ _ R).
  split; [done|]. by apply stored_after_update_token.
Qed.

Lemma login_then_refresh_succeeds_witness :
  let w1 := after (auth.login Demo.cfg "alice@example.com" "correct horse" 5)
              Demo.world0 in
  response (auth.refresh_token Demo.cfg (Demo.alice_token 5) 900) w1
  = Return (TokenModel.mk
              (auth_service.create_access_token Demo.cfg
                 "alice@example.com" 900)
              (Demo.alice_token 900) "bearer")
  ∧ stored_refresh_token
      (after (auth.refresh_token Demo.cfg (Demo.alice_token 5) 900) w1)
      "alice@example.com"
    = Some (Demo.alice_token 900).
Proof.
  apply (login_then_refresh_succeeds Demo.cfg Demo.world0
           "alice@example.com" "correct horse" 5 900
           (TokenModel.mk
              (auth_service.create_access_token Demo.cfg
                 "alice@example.com" 5)
              (Demo.alice_token 5) "bearer"));
    reflexivity.
Defined.

(** ** Request confirmation, confirm and signup: outcome and footprint *)

(** X8.  [request_email] never writes to the user table or the outbox.  It
    raises for an unregistered email, answers "Your email is already
    confirmed" without queueing anything for a confirmed user, and for a
    registered, unconfirmed user queues exactly one send, addressed to that
    email under the stored username, and answers "Check your email for
    confirmation.". *)
Theorem request_email_queues_only_for_unconfirmed email base_url w :
  let w' := after (auth.request_email email base_url) w in
  users w' = users w
  ∧ outbox w' = outbox w
  ∧ match users w !! email with
    | None =>
        response (auth.request_email email base_url) w
        = Raise (AttributeError "NoneType" "confirmed")
        ∧ background_tasks w' = background_tasks w
    | Some row =>
        if row_confirmed row then
          response (auth.request_email email base_url) w
          = Return "Your email is already confirmed"
          ∧ background_tasks w' = background_tasks w
        else
          response (auth.request_email email base_url) w
          = Return "Check your email for confirmation."
          ∧ background_tasks w'
            = (background_tasks w
               ++ [send_email email (row_username row) base_url])%list
    end.
Proof.
  cbv zeta. split; [apply users_after_request_email|].
  destruct (users w !! email) as [row|] eqn:Hrow.
  - unfold after, response, auth.request_email.
    rewrite (bind_return _ _ _ _ _ (get_user_by_email_found _ _ _ Hrow)).
    simpl. by destruct (row_confirmed row).
  - assert (E := request_email_unregistered w email base_url Hrow).
    by rewrite (response_eq _ _ _ _ E), (after_eq _ _ _ _ E).
Qed.

(** X9.  [confirmed_email] returns a message exactly when the token decodes to a
    registered email.  A token that decodes to an email without a user
    raises 400 "Verification error", and every failure leaves the world as
    it was. *)
Theorem confirmed_email_returns_iff_subject_registered cfg w token now :
  ((∃ message,
      response (auth.confirmed_email cfg token now) w = Return message)
   ↔ ∃ email,
       auth_service.decode cfg token EmailConfirmation now = Some email
       ∧ is_Some (users w !! email))
  ∧ (∀ email,
       auth_service.decode cfg token EmailConfirmation now = Some email →
       users w !! email = None →
       auth.confirmed_email cfg token now w
       = (Raise (HTTPException status.HTTP_400_BAD_REQUEST
                               "Verification error"), w))
  ∧ (∀ e,
       response (auth.confirmed_email cfg token now) w = Raise e →
       after (auth.confirmed_email cfg token now) w = w).
Proof.
  assert (Habsent : ∀ email,
    auth_service.decode cfg token EmailConfirmation now = Some email →
    users w !! email = None →
    auth.confirmed_email cfg token now w
    = (Raise (HTTPException 400 "Verification error"), w)).
  { intros email Hdec Hnone. unfold auth.confirmed_email.
    rewrite (bind_return _ _ _ _ _
               (get_email_from_token_valid _ _ _ _ w Hdec)).
    by rewrite (bind_return _ _ _ _ _
                  (get_user_by_email_absent _ _ Hnone)). }
  assert (Hbad :
    auth_service.decode cfg token EmailConfirmation now = None →
    auth.confirmed_email cfg token now w
    = (Raise (HTTPException 400 "Verification error"), w)).
  { intros Hdec.
    unfold auth.confirmed_email, auth_service.get_email_from_token.
    by rewrite Hdec. }
  split; [|split; [exact Habsent|]].
  - split.
    + intros [message E].
      destruct (auth_service.decode cfg token EmailConfirmation now)
        as [email|] eqn:Hdec.
      * exists email. split; [done|].
        destruct (users w !! email) eqn:Hrow; [by eexists|].
        by rewrite (response_eq _ _ _ _ (Habsent email eq_refl Hrow)) in E.
      * by rewrite (response_eq _ _ _ _ (Hbad eq_refl)) in E.
    + intros (email & Hdec & [row Hrow]).
      destruct (row_confirmed row) eqn:Hc; eexists.
      * by rewrite (response_eq _ _ _ _
                      (confirmed_email_already _ _ _ _ _ _ Hdec Hrow Hc)).
      * by rewrite (response_eq _ _ _ _
                      (confirmed_email_first _ _ _ _ _ _ Hdec Hrow Hc)).
  - intros e E.
    destruct (auth_service.decode cfg token EmailConfirmation now)
      as [email|] eqn:Hdec.
    + destruct (users w !! email) as [row|] eqn:Hrow.
      * destruct (row_confirmed row) eqn:Hc.
        -- by rewrite (response_eq _ _ _ _
                         (confirmed_email_already _ _ _ _ _ _ Hdec Hrow Hc))
             in E.
        -- by rewrite (response_eq _ _ _ _
                         (confirmed_email_first _ _ _ _ _ _ Hdec Hrow Hc))
             in E.
      * by rewrite (after_eq _ _ _ _ (Habsent email eq_refl Hrow)).
    + by rewrite (after_eq _ _ _ _ (Hbad eq_refl)).
Qed.

Lemma confirmed_email_returns_iff_subject_registered_witness :
  let ghost := auth_service.create_email_token Demo.cfg
                 "ghost@example.com" 2 in
  auth.confirmed_email Demo.cfg ghost 3 Demo.world0
  = (Raise (HTTPException 400 "Verification error"), Demo.world0).
Proof.
  cbv zeta.
  destruct (confirmed_email_returns_iff_subject_registered Demo.cfg
              Demo.world0
              (auth_service.create_email_token Demo.cfg
                 "ghost@example.com" 2) 3) as (_ & H & _).
  apply (H "ghost@example.com"); reflexivity.
Defined.

(** X10.  [signup] never alters a user that already exists: whatever body is
    submitted, every row present before is present and identical after, so
    signing up again under a registered email cannot replace its password,
    reset its confirmed flag or drop its refresh token; at most the row of
    the body's own email is added. *)
Theorem signup_never_alters_existing_user body salt base_url w :
  let w' := after (auth.signup body salt base_url) w in
  (∀ e row, users w !! e = Some row → users w' !! e = Some row)
  ∧ (∀ e, e ≠ UserModel.email body → users w' !! e = users w !! e)
  ∧ outbox w' = outbox w.
Proof.
  cbv zeta. split; [|split].
  - intros e row He. rewrite users_after_signup.
    destruct (users w !! UserModel.email body) eqn:Hbody; [done|].
    rewrite lookup_insert_ne; [done|]. intros E. congruence.
  - intros e Hne. rewrite users_after_signup.
    destruct (users w !! UserModel.email body) eqn:Hbody; [done|].
    by rewrite lookup_insert_ne.
  - destruct (users w !! UserModel.email body) as [row|] eqn:Hbody.
    + by rewrite (after_eq _ _ _ _
                    (signup_conflict _ salt base_url _
                       (mk_is_Some _ _ Hbody))).
    + by rewrite (after_eq _ _ _ _ (signup_created _ salt base_url _ Hbody)).
Qed.

Lemma signup_never_alters_existing_user_witness :
  users (after (auth.signup
                  (UserModel.mk "mallory" "alice@example.com" "owned") 1
                  "http://testserver/")
           (Demo.world_holding (Some (Demo.alice_token 5))))
    !! "alice@example.com"
  = Some (Demo.alice_holding (Some (Demo.alice_token 5))).
Proof.
  destruct (signup_never_alters_existing_user
              (UserModel.mk "mallory" "alice@example.com" "owned") 1
              "http://testserver/"
              (Demo.world_holding (Some (Demo.alice_token 5))))
    as (H & _).
  apply H. reflexivity.
Defined.

(** ** From signup to a session *)

(** X11.  The account life cycle.  After a signup under a fresh email, login with
    the very password that was signed up is refused with 401 "Email not
    confirmed"; a confirmation token for that email is then accepted with
    "Email confirmed"; and from then on login with that password returns a
    token pair whose refresh token is the stored one. *)
Theorem signup_confirm_login
    cfg body salt base_url token w t1 t2 t3 :
  users w !! UserModel.email body = None →
  auth_service.decode cfg token EmailConfirmation t2
  = Some (UserModel.email body) →
  let email := UserModel.email body in
  let password := UserModel.password body in
  let w1 := after (auth.signup body salt base_url) w in
  let w2 := after (auth.confirmed_email cfg token t2) w1 in
  auth.login cfg email password t1 w1
  = (Raise (HTTPException status.HTTP_401_UNAUTHORIZED
                          "Email not confirmed"), w1)
  ∧ response (auth.confirmed_email cfg token t2) w1
    = Return "Email confirmed"
  ∧ response (auth.login cfg email password t3) w2
    = Return (TokenModel.mk (auth_service.create_access_token cfg email t3)
                (auth_service.create_refresh_token cfg email t3) "bearer")
  ∧ stored_refresh_token (after (auth.login cfg email password t3) w2)
      email
    = Some (auth_service.create_refresh_token cfg email t3).
Proof.
  intros Hfresh Hdec. cbv zeta.
  rewrite (after_eq _ _ _ _ (signup_created _ salt base_url _ Hfresh)).
  set (stored := mkRow (UserModel.username body)
                   (auth_service.get_password_hash salt
                      (UserModel.password body)) false None).
  set (w1 := mkWorld _ _ _).
  assert (Hrow1 : users w1 !! UserModel.email body = Some stored)
    by apply lookup_insert_eq.
  split; [by eapply login_unconfirmed|].
  assert (C := confirmed_email_first cfg w1 token t2 _ stored Hdec Hrow1
                 eq_refl).
  rewrite (response_eq _ _ _ _ C), (after_eq _ _ _ _ C).
  split; [done|].
  set (w2 := after _ w1).
  assert (Hrow2 : users w2 !! UserModel.email body
                  = Some (mkRow (UserModel.username body)
                            (auth_service.get_password_hash salt
                               (UserModel.password body)) true None)).
  { unfold w2. rewrite confirmed_email_lookup, decide_True by done.
    by rewrite Hrow1. }
  assert (L := login_ok cfg w2 _ (UserModel.password body) t3 _ Hrow2
                 eq_refl (verify_password_get_password_hash _ _)).
  rewrite (response_eq _ _ _ _ L), (after_eq _ _ _ _ L).
  split; [done|]. by apply stored_after_update_token.
Qed.

Lemma signup_confirm_login_witness :
  let token := auth_service.create_email_token Demo.cfg
                 "carol@example.com" 2 in
  let w1 := after (auth.signup Demo.carol 11 "http://testserver/")
              Demo.world0 in
  let w2 := after (auth.confirmed_email Demo.cfg token 3) w1 in
  auth.login Demo.cfg "carol@example.com" "s3cret" 2 w1
  = (Raise (HTTPException 401 "Email not confirmed"), w1)
  ∧ response (auth.confirmed_email Demo.cfg token 3) w1
    = Return "Email confirmed"
  ∧ response (auth.login Demo.cfg "carol@example.com" "s3cret" 4) w2
    = Return (TokenModel.mk
                (auth_service.create_access_token Demo.cfg
                   "carol@example.com" 4)
                (auth_service.create_refresh_token Demo.cfg
                   "carol@example.com" 4) "bearer")
  ∧ stored_refresh_token
      (after (auth.login Demo.cfg "carol@example.com" "s3cret" 4) w2)
      "carol@example.com"
    = Some (auth_service.create_refresh_token Demo.cfg
              "carol@example.com" 4).
Proof.
  apply (signup_confirm_login Demo.cfg Demo.carol 11 "http://testserver/"
           (auth_service.create_email_token Demo.cfg "carol@example.com" 2)
           Demo.world0 2 3 4);
    reflexivity.
Defined.

(** ** Invariants along a run *)

Lemma run_invariant cfg delivers (P : World → Prop) :
  (∀ w r, P w → P (step cfg delivers w r)) →
  ∀ trace w, P w → P (run cfg delivers trace w).
Proof.
  intros Hstep trace. unfold run.
  induction trace as [|r trace IH]; intros w Hw; [done|].
  simpl. apply IH. by apply Hstep.
Qed.

Lemma step_keeps_identity cfg delivers w r email row :
  users w !! email = Some row →
  ∃ row',
    users (step cfg delivers w r) !! email = Some row'
    ∧ row_username row' = row_username row
    ∧ row_password row' = row_password row.
Proof.
  intros Hrow. destruct r as [now req]. unfold step. cbn [fst snd].
  destruct req as [body salt base_url|username password|token
                  |email' base_url|token]; rewrite users_serve.
  - rewrite users_after_signup.
    destruct (users w !! UserModel.email body) eqn:Hbody.
    + by exists row.
    + exists row. split; [|done].
      rewrite lookup_insert_ne; [done|]. intros E. congruence.
  - destruct (users_after_login cfg username password now w)
      as [->|(user & tok & ->)].
    + by exists row.
    + rewrite update_token_lookup, Hrow.
      case_decide; eexists; (split; [reflexivity|done]).
  - destruct (users_after_confirmed_email cfg token now w)
      as [->|(email' & ->)].
    + by exists row.
    + rewrite confirmed_email_lookup, Hrow.
      case_decide; eexists; (split; [reflexivity|done]).
  - rewrite users_after_request_email. by exists row.
  - destruct (users_after_refresh_token cfg token now w)
      as [->|(user & tok & ->)].
    + by exists row.
    + rewrite update_token_lookup, Hrow.
      case_decide; eexists; (split; [reflexivity|done]).
Qed.

(** X12.  No sequence of requests removes a user or changes its username or its
    password hash: a password that verifies for an email keeps verifying
    after any run, and one that does not never starts to. *)
Theorem credentials_never_change cfg delivers trace w email row :
  users w !! email = Some row →
  ∃ row',
    users (run cfg delivers trace w) !! email = Some row'
    ∧ row_username row' = row_username row
    ∧ row_password row' = row_password row
    ∧ ∀ password,
        auth_service.verify_password password (row_password row')
        = auth_service.verify_password password (row_password row).
Proof.
  intros Hrow.
  cut (∃ row',
         users (run cfg delivers trace w) !! email = Some row'
         ∧ row_username row' = row_username row
         ∧ row_password row' = row_password row).
  { intros (row' & E & Hu & Hp). exists row'.
    repeat (split; [done|]). intros password. by rewrite Hp. }
  apply (run_invariant cfg delivers
           (λ w, ∃ row', users w !! email = Some row'
                         ∧ row_username row' = row_username row
                         ∧ row_password row' = row_password row)).
  - intros w0 r (row1 & E1 & Hu1 & Hp1).
    destruct (step_keeps_identity cfg delivers w0 r email row1 E1)
      as (row2 & E2 & Hu2 & Hp2).
    exists row2. split; [done|]. split; congruence.
  - by exists row.
Qed.

Lemma credentials_never_change_witness :
  ∃ row',
    users (run Demo.cfg Demo.reliable
             [(1, Signup (UserModel.mk "mallory" "alice@example.com" "owned")
                    1 "http://testserver/");
              (2, Login "alice@example.com" "correct horse");
              (3, RefreshToken (Demo.alice_token 1));
              (4, RequestEmail "alice@example.com" "http://testserver/")]
             Demo.world0) !! "alice@example.com" = Some row'
    ∧ row_username row' = "alice"
    ∧ row_password row'
      = auth_service.get_password_hash 7 "correct horse"
    ∧ ∀ password,
        auth_service.verify_password password (row_password row')
        = auth_service.verify_password password
            (auth_service.get_password_hash 7 "correct horse").
Proof.
  apply (credentials_never_change Demo.cfg Demo.reliable _ Demo.world0
           "alice@example.com" Demo.alice).
  reflexivity.
Defined.

Lemma step_holders_confirmed cfg delivers w r :
  holders_confirmed w → holders_confirmed (step cfg delivers w r).
Proof.
  unfold holders_confirmed, map_Forall. intros Hinv e row' He.
  destruct r as [now req]. unfold step in He. cbn [fst snd] in He.
  destruct req as [body salt base_url|username password|token
                  |email' base_url|token]; rewrite users_serve in He.
  - rewrite users_after_signup in He.
    destruct (users w !! UserModel.email body) eqn:Hbody; [by eapply Hinv|].
    destruct (decide (UserModel.email body = e)) as [<-|Hne].
    + rewrite lookup_insert_eq in He. by injection He as <-.
    + rewrite lookup_insert_ne in He by done. by eapply Hinv.
  - destruct (users w !! username) as [row|] eqn:Hrow.
    + destruct (row_confirmed row) eqn:Hc.
      * destruct (auth_service.verify_password password (row_password row))
          eqn:Hv.
        -- rewrite (after_eq _ _ _ _ (login_ok cfg _ _ _ now _ Hrow Hc Hv))
             in He.
           rewrite update_token_lookup in He. simpl in He.
           case_decide as Hd; [|by eapply Hinv].
           subst e. rewrite Hrow in He. injection He as <-.
           unfold token_holder_confirmed. simpl. exact Hc.
        -- rewrite (after_eq _ _ _ _
                      (login_bad_password cfg _ _ _ now _ Hrow Hc Hv)) in He.
           by eapply Hinv.
      * rewrite (after_eq _ _ _ _
                   (login_unconfirmed cfg _ _ password now _ Hrow Hc)) in He.
        by eapply Hinv.
    + rewrite (after_eq _ _ _ _ (login_unknown cfg _ _ password now Hrow))
        in He.
      by eapply Hinv.
  - destruct (users_after_confirmed_email cfg token now w)
      as [E|(email' & E)]; rewrite E in He; [by eapply Hinv|].
    rewrite confirmed_email_lookup in He.
    case_decide as Hd; [|by eapply Hinv].
    destruct (users w !! e) as [row|] eqn:Hrow; [|done].
    injection He as <-. unfold token_holder_confirmed. simpl.
    by destruct (row_refresh_token row).
  - rewrite users_after_request_email in He. by eapply Hinv.
  - destruct (auth_service.decode cfg token Refresh now) as [email|]
      eqn:Hdec.
    + destruct (users w !! email) as [row|] eqn:Hrow.
      * destruct (decide (row_refresh_token row = Some token)) as [Heq|Hne].
        -- rewrite (after_eq _ _ _ _
                      (refresh_token_match _ _ _ _ _ _ Hdec Hrow Heq)) in He.
           rewrite update_token_lookup in He. simpl in He.
           case_decide as Hd; [|by eapply Hinv].
           subst e. rewrite Hrow in He. injection He as <-.
           assert (Hh := Hinv email row Hrow).
           unfold token_holder_confirmed in Hh |- *.
           rewrite Heq in Hh. simpl. exact Hh.
        -- rewrite (after_eq _ _ _ _
                      (refresh_token_stale _ _ _ _ _ _ Hdec Hrow Hne)) in He.
           rewrite update_token_lookup in He. simpl in He.
           case_decide as Hd; [|by eapply Hinv].
           subst e. rewrite Hrow in He. by injection He as <-.
      * rewrite (after_eq _ _ _ _
                   (refresh_token_no_user _ _ _ _ _ Hdec Hrow)) in He.
        by eapply Hinv.
    + rewrite (after_eq _ _ _ _ (refresh_token_undecodable _ w _ _ Hdec))
        in He.
      by eapply Hinv.
Qed.

(** X13.  Only confirmed users ever hold a refresh token.  If every stored
    refresh token belongs to a confirmed user, this still holds after any
    sequence of requests; hence, although [refresh_token] never looks at the
    confirmed flag, it only ever returns a token pair for a confirmed
    user. *)
Theorem token_holders_stay_confirmed cfg delivers trace w :
  holders_confirmed w →
  let w' := run cfg delivers trace w in
  holders_confirmed w'
  ∧ ∀ token now tm email,
      response (auth.refresh_token cfg token now) w' = Return tm →
      auth_service.decode cfg token Refresh now = Some email →
      is_confirmed w' email = true.
Proof.
  intros Hinv. cbv zeta.
  assert (Hinv' : holders_confirmed (run cfg delivers trace w)).
  { revert w Hinv. apply run_invariant. apply step_holders_confirmed. }
  split; [exact Hinv'|].
  intros token now tm email E Hdec.
  set (w' := run cfg delivers trace w) in *.
  destruct (users w' !! email) as [row|] eqn:Hrow.
  - destruct (decide (row_refresh_token row = Some token)) as [Heq|Hne].
    + assert (Hh := Hinv' email row Hrow). simpl in Hh.
      unfold token_holder_confirmed in Hh. rewrite Heq in Hh.
      unfold is_confirmed. by rewrite Hrow.
    + by rewrite (response_eq _ _ _ _
                    (refresh_token_stale _ _ _ _ _ _ Hdec Hrow Hne)) in E.
  - by rewrite (response_eq _ _ _ _
                  (refresh_token_no_user _ _ _ _ _ Hdec Hrow)) in E.
Qed.

Lemma token_holders_stay_confirmed_witness :
  holders_confirmed
    (run Demo.cfg Demo.reliable
       [(1, Signup Demo.carol 11 "http://testserver/");
        (2, Login "alice@example.com" "correct horse");
        (3, RefreshToken (Demo.alice_token 2));
        (4, ConfirmedEmail Demo.bob_email_token);
        (5, Login "bob@example.com" "hunter2")]
       Demo.world0).
Proof.
  apply (token_holders_stay_confirmed Demo.cfg Demo.reliable _ Demo.world0).
  unfold holders_confirmed. simpl.
  apply map_Forall_insert_2; [reflexivity|].
  apply map_Forall_insert_2; [reflexivity|].
  apply map_Forall_empty.
Defined.

(** X14.  Accounts come into being through signup only: when an email that was
    not registered is registered after a served request, the request was a
    signup for that email, and the new row is unconfirmed, holds no refresh
    token and carries the hash of the submitted password. *)
Theorem accounts_created_only_by_signup cfg delivers w r email row :
  users w !! email = None →
  users (step cfg delivers w r) !! email = Some row →
  ∃ body salt base_url,
    r.2 = Signup body salt base_url
    ∧ UserModel.email body = email
    ∧ row = mkRow (UserModel.username body)
              (auth_service.get_password_hash salt (UserModel.password body))
              false None.
Proof.
  intros Hnone He. destruct r as [now req]. unfold step in He.
  cbn [fst snd] in He |- *.
  destruct req as [body salt base_url|username password|token
                  |email' base_url|token]; rewrite users_serve in He.
  - rewrite users_after_signup in He.
    destruct (users w !! UserModel.email body) eqn:Hbody; [congruence|].
    destruct (decide (UserModel.email body = email)) as [Heq|Hne].
    + rewrite <- Heq, lookup_insert_eq in He. injection He as <-.
      by exists body, salt, base_url.
    + rewrite lookup_insert_ne in He by done. congruence.
  - destruct (users_after_login cfg username password now w)
      as [E|(user & tok & E)]; rewrite E in He; [congruence|].
    rewrite update_token_lookup, Hnone in He. by case_decide.
  - destruct (users_after_confirmed_email cfg token now w)
      as [E|(email' & E)]; rewrite E in He; [congruence|].
    rewrite confirmed_email_lookup, Hnone in He. by case_decide.
  - rewrite users_after_request_email in He. congruence.
  - destruct (users_after_refresh_token cfg token now w)
      as [E|(user & tok & E)]; rewrite E in He; [congruence|].
    rewrite update_token_lookup, Hnone in He. by case_decide.
Qed.

Lemma accounts_created_only_by_signup_witness :
  ∃ body salt base_url,
    (1, Signup Demo.carol 11 "http://testserver/").2
    = Signup body salt base_url
    ∧ UserModel.email body = "carol@example.com"
    ∧ mkRow "carol" (auth_service.get_password_hash 11 "s3cret") false None
      = mkRow (UserModel.username body)
          (auth_service.get_password_hash salt (UserModel.password body))
          false None.
Proof.
  apply (accounts_created_only_by_signup Demo.cfg Demo.reliable Demo.world0
           (1, Signup Demo.carol 11 "http://testserver/")
           "carol@example.com");
    reflexivity.
Defined.

Lemma issued_to_create_refresh_token cfg email t :
  issued_to cfg email (auth_service.create_refresh_token cfg email t) = true.
Proof. unfold issued_to. simpl. by rewrite bool_decide_eq_true_2. Qed.

Lemma step_stored_tokens_own cfg delivers w r :
  stored_tokens_own cfg w → stored_tokens_own cfg (step cfg delivers w r).
Proof.
  unfold stored_tokens_own, map_Forall. intros Hinv e row' He.
  destruct r as [now req]. unfold step in He. cbn [fst snd] in He.
  destruct req as [body salt base_url|username password|token
                  |email' base_url|token]; rewrite users_serve in He.
  - rewrite users_after_signup in He.
    destruct (users w !! UserModel.email body) eqn:Hbody; [by eapply Hinv|].
    destruct (decide (UserModel.email body = e)) as [<-|Hne].
    + rewrite lookup_insert_eq in He. by injection He as <-.
    + rewrite lookup_insert_ne in He by done. by eapply Hinv.
  - destruct (users w !! username) as [row|] eqn:Hrow.
    + destruct (row_confirmed row) eqn:Hc.
      * destruct (auth_service.verify_password password (row_password row))
          eqn:Hv.
        -- rewrite (after_eq _ _ _ _ (login_ok cfg _ _ _ now _ Hrow Hc Hv))
             in He.
           rewrite update_token_lookup in He. simpl in He.
           case_decide as Hd; [|by eapply Hinv].
           subst e. rewrite Hrow in He. injection He as <-.
           apply issued_to_create_refresh_token.
        -- rewrite (after_eq _ _ _ _
                      (login_bad_password cfg _ _ _ now _ Hrow Hc Hv)) in He.
           by eapply Hinv.
      * rewrite (after_eq _ _ _ _
                   (login_unconfirmed cfg _ _ password now _ Hrow Hc)) in He.
        by eapply Hinv.
    + rewrite (after_eq _ _ _ _ (login_unknown cfg _ _ password now Hrow))
        in He.
      by eapply Hinv.
  - destruct (users_after_confirmed_email cfg token now w)
      as [E|(email' & E)]; rewrite E in He; [by eapply Hinv|].
    rewrite confirmed_email_lookup in He.
    case_decide as Hd; [|by eapply Hinv].
    destruct (users w !! e) as [row|] eqn:Hrow; [|done].
    injection He as <-. simpl. by apply (Hinv e row).
  - rewrite users_after_request_email in He. by eapply Hinv.
  - destruct (auth_service.decode cfg token Refresh now) as [email|]
      eqn:Hdec.
    + destruct (users w !! email) as [row|] eqn:Hrow.
      * destruct (decide (row_refresh_token row = Some token)) as [Heq|Hne].
        -- rewrite (after_eq _ _ _ _
                      (refresh_token_match _ _ _ _ _ _ Hdec Hrow Heq)) in He.
           rewrite update_token_lookup in He. simpl in He.
           case_decide as Hd; [|by eapply Hinv].
           subst e. rewrite Hrow in He. injection He as <-.
           apply issued_to_create_refresh_token.
        -- rewrite (after_eq _ _ _ _
                      (refresh_token_stale _ _ _ _ _ _ Hdec Hrow Hne)) in He.
           rewrite update_token_lookup in He. simpl in He.
           case_decide as Hd; [|by eapply Hinv].
           subst e. rewrite Hrow in He. by injection He as <-.
      * rewrite (after_eq _ _ _ _
                   (refresh_token_no_user _ _ _ _ _ Hdec Hrow)) in He.
        by eapply Hinv.
    + rewrite (after_eq _ _ _ _ (refresh_token_undecodable _ w _ _ Hdec))
        in He.
      by eapply Hinv.
Qed.

(** X15.  A stored refresh token always belongs to the user whose row holds it.
    If this holds of the table (as it does of the empty one), it holds after
    any sequence of requests; and then presenting a stored token, while it
    is unexpired, always returns a new pair for the very user that held it,
    never for another one. *)
Theorem stored_tokens_belong_to_their_user cfg delivers trace w :
  stored_tokens_own cfg w →
  let w' := run cfg delivers trace w in
  stored_tokens_own cfg w'
  ∧ ∀ email row token now,
      users w' !! email = Some row →
      row_refresh_token row = Some token →
      (∀ e, auth_service.decode cfg token Refresh now = Some e → e = email)
      ∧ (∀ t, issued_at token = Some t → now < t + refresh_ttl cfg →
           response (auth.refresh_token cfg token now) w'
           = Return (TokenModel.mk
                       (auth_service.create_access_token cfg email now)
                       (auth_service.create_refresh_token cfg email now)
                       "bearer")).
Proof.
  intros Hinv. cbv zeta.
  assert (Hinv' : stored_tokens_own cfg (run cfg delivers trace w)).
  { revert w Hinv. apply run_invariant. apply step_stored_tokens_own. }
  split; [exact Hinv'|].
  set (w' := run cfg delivers trace w) in *.
  intros email row token now Hrow Hstored.
  assert (Hown := Hinv' email row Hrow). simpl in Hown.
  rewrite Hstored in Hown. simpl in Hown. unfold issued_to in Hown.
  destruct (issued_at token) as [t0|] eqn:Hiat; [|done].
  apply bool_decide_eq_true in Hown.
  split.
  - intros e. rewrite Hown. apply decode_create_refresh_token_sub.
  - intros t [= <-] Hexp.
    assert (Hdec : auth_service.decode cfg token Refresh now = Some email).
    { rewrite Hown. by apply decode_create_refresh_token. }
    by rewrite (response_eq _ _ _ _
                  (refresh_token_match _ _ _ _ _ _ Hdec Hrow Hstored)).
Qed.

Lemma stored_tokens_belong_to_their_user_witness :
  stored_tokens_own Demo.cfg
    (run Demo.cfg Demo.reliable
       [(1, Signup Demo.carol 11 "http://testserver/");
        (2, Login "alice@example.com" "correct horse");
        (3, RefreshToken (Demo.alice_token 2));
        (4, RefreshToken (Demo.alice_token 2))]
       (Demo.world_holding (Some (Demo.alice_token 1)))).
Proof.
  apply (stored_tokens_belong_to_their_user Demo.cfg Demo.reliable _
           (Demo.world_holding (Some (Demo.alice_token 1)))).
  unfold stored_tokens_own. simpl.
  apply map_Forall_insert_2; [reflexivity|].
  apply map_Forall_insert_2; [reflexivity|].
  apply map_Forall_empty.
Defined.

(** ** Where rotation does not invalidate *)


